(** * bot3xui: the YooKassa webhook adapter and the legacy promocode generator

    A shallow embedding of
    - [app/bot/payment_gateways/yookassa.py] (module [Yookassa] below) and
    - [scripts/generate_legacy_promocodes.py] (module [Promocodes] below),
    followed by the properties of the two programs.

    Conventions of the embedding.
    - Python [int] is [Z]; [str] is [string] (a sequence of bytes, so the
      case and whitespace functions below are the ASCII ones; Python's agree
      with them on ASCII text, and no non-ASCII character is mapped by
      [str.lower] onto one of the ASCII letters of the words compared here).
    - A call that may raise returns a [result]; [try]/[except] is [try_except].
    - [set[str]] is [gset string]; a [dict] whose iteration order is observed
      is an association list in insertion order.
    - Logging and printing are not modelled. *)

From Stdlib Require Import ZArith Ascii String List Lia Permutation Sorted.
From stdpp Require Import base decidable option list gmap strings.

Local Open Scope string_scope.
Local Open Scope list_scope.
Local Open Scope Z_scope.

(** ** Exceptions *)

(** The exceptions that [except Exception] catches. [SystemExit] is not one
    of them; it only occurs in [Promocodes.main], where it is an [exit]. *)
Inductive exception : Type :=
| OverflowError
| Exception (msg : string).

Inductive result (A : Type) : Type :=
| Return (a : A)
| Raise (e : exception).
Arguments Return {A} a.
Arguments Raise {A} e.

Global Instance result_ret : MRet result := fun _ a => Return a.
Global Instance result_bind : MBind result := fun _ _ f m =>
  match m with
  | Return a => f a
  | Raise e => Raise e
  end.

Definition returns {A} (m : result A) : Prop := exists a, m = Return a.

(** ** Python string methods (ASCII) *)

Module Str.

Definition is_upper (c : ascii) : bool :=
  let n := N_of_ascii c in ((65 <=? n) && (n <=? 90))%N.

Definition is_lower (c : ascii) : bool :=
  let n := N_of_ascii c in ((97 <=? n) && (n <=? 122))%N.

Definition is_digit (c : ascii) : bool :=
  let n := N_of_ascii c in ((48 <=? n) && (n <=? 57))%N.

(** The characters [str.strip] removes among the first 128: tab, line feed,
    vertical tab, form feed, carriage return, the four separators
    0x1c..0x1f and the space. *)
Definition is_space (c : ascii) : bool :=
  let n := N_of_ascii c in
  (((9 <=? n) && (n <=? 13)) || ((28 <=? n) && (n <=? 32)))%N.

Definition upper_char (c : ascii) : ascii :=
  if is_lower c then ascii_of_N (N_of_ascii c - 32) else c.

Definition lower_char (c : ascii) : ascii :=
  if is_upper c then ascii_of_N (N_of_ascii c + 32) else c.

Fixpoint map (f : ascii -> ascii) (s : string) : string :=
  match s with
  | EmptyString => EmptyString
  | String c s' => String (f c) (map f s')
  end.

Definition upper : string -> string := map upper_char.
Definition lower : string -> string := map lower_char.

Fixpoint forallb (p : ascii -> bool) (s : string) : bool :=
  match s with
  | EmptyString => true
  | String c s' => p c && forallb p s'
  end.

(** [s.isdigit()]: at least one character and all of them digits. *)
Definition isdigit (s : string) : bool :=
  match s with
  | EmptyString => false
  | _ => forallb is_digit s
  end.

Fixpoint lstrip (s : string) : string :=
  match s with
  | EmptyString => EmptyString
  | String c s' => if is_space c then lstrip s' else s
  end.

Fixpoint rstrip (s : string) : string :=
  match s with
  | EmptyString => EmptyString
  | String c s' =>
      match rstrip s' with
      | EmptyString => if is_space c then EmptyString else String c EmptyString
      | t => String c t
      end
  end.

Definition strip (s : string) : string := rstrip (lstrip s).

(** [s.split(sep)[0]]: the text before the first [sep]. *)
Fixpoint split_first (sep : ascii) (s : string) : string :=
  match s with
  | EmptyString => EmptyString
  | String c s' => if Ascii.eqb c sep then EmptyString else String c (split_first sep s')
  end.

(** Truth value of a string: the empty string is false. *)
Definition truthy (s : string) : bool :=
  match s with EmptyString => false | _ => true end.

(** [s.startswith(p)]. *)
Definition startswith (p s : string) : bool := String.prefix p s.

End Str.

(** ** True division of integers and [math.ceil]

    [a / b] on Python integers is the binary64 number nearest to the exact
    quotient (ties to even); a quotient that rounds to [2^1024] or more
    raises [OverflowError]. The script divides a positive number of
    milliseconds by [MS_PER_DAY], so only positive operands with a quotient
    of at least [2^-27] occur, far above the subnormal range, which is
    therefore left out. *)

Record binary64 : Type := Float { mantissa : Z; exponent : Z }.

(** [x * 2^n] for [n >= 0], and [x] otherwise. *)
Definition scale (x n : Z) : Z := x * 2 ^ Z.max 0 n.

(** [floor (log2 (a / b))] for positive [a] and [b]. *)
Definition quotient_log2 (a b : Z) : Z :=
  let d := Z.log2 a - Z.log2 b in
  if scale b d <=? scale a (- d) then d else d - 1.

Definition int_true_divide (a b : Z) : result binary64 :=
  let k := quotient_log2 a b in
  let s := 52 - k in
  let n := scale a s in
  let d := scale b (- s) in
  let q := n / d in
  let r := n mod d in
  let m := if (d <? 2 * r) || ((d =? 2 * r) && Z.odd q) then q + 1 else q in
  if (971 <? k - 52) || ((k - 52 =? 971) && (m =? 2 ^ 53))
  then Raise OverflowError
  else Return (Float m (k - 52)).

Definition math_ceil (x : binary64) : Z :=
  if 0 <=? exponent x
  then mantissa x * 2 ^ exponent x
  else - ((- mantissa x) / 2 ^ (- exponent x)).

(** The exact ceiling of [a / b], for comparison. *)
Definition ceil_div (a b : Z) : Z := - ((- a) / b).

(** ** app/bot/payment_gateways/yookassa.py *)

Module Yookassa.

(** Modelled from the spec: the two members of the SDK's
    [WebhookNotificationEventType] that the handler names; the SDK is not
    part of the repository. An event is the text of the notification's
    ["event"] field. *)
Definition PAYMENT_SUCCEEDED : string := "payment.succeeded".
Definition PAYMENT_CANCELED : string := "payment.canceled".

(** The notification built from the body: [notification_object.event] and
    [notification_object.object.id] ([None] when the id is absent). *)
Record WebhookNotification : Type := {
  event : string;
  object_id : option string
}.

(** What the handler reads of the request: the outcome of
    [request.json()] followed by [WebhookNotificationFactory().create], the
    [X-Forwarded-For] header and [request.remote]. *)
Record Request : Type := {
  notification : result WebhookNotification;
  X_Forwarded_For : option string;
  remote : option string
}.

Inductive Response : Type := Response_ (status : Z).

(** [payment.status] is an enumeration member with a [value] attribute, or
    anything else, known by its [str]. *)
Inductive status_object : Type :=
| WithValue (value : string)
| Plain (text : string).

(** The [PaymentResponse] of the lookup: [payment.status] and
    [bool(getattr(payment, "paid", False))]. *)
Record PaymentResponse : Type := {
  status : status_object;
  paid : bool
}.

(** The collaborators of the gateway: the SDK's trusted-address helper and
    payment lookup, and the two status updates inherited from
    [PaymentGateway], which act on the transaction store [DB]. Each of them
    may raise. *)
Record Gateway (DB : Type) : Type := {
  is_ip_trusted : string -> result bool;
  Payment_find_one : string -> result PaymentResponse;
  _on_payment_succeeded : string -> DB -> result unit * DB;
  _on_payment_canceled : string -> DB -> result unit * DB
}.
Arguments is_ip_trusted {DB} _ _.
Arguments Payment_find_one {DB} _ _.
Arguments _on_payment_succeeded {DB} _ _ _.
Arguments _on_payment_canceled {DB} _ _ _.

(** The calls a request makes, in order. *)
Inductive call : Type :=
| FindOne (payment_id : string)
| HandlePaymentSucceeded (payment_id : string)
| HandlePaymentCanceled (payment_id : string).

Record state (DB : Type) : Type := State { db : DB; calls : list call }.
Arguments State {DB} db calls.
Arguments db {DB} _.
Arguments calls {DB} _.

(** Computations that read and change the state and may raise. *)
Definition M (DB A : Type) : Type := state DB -> result A * state DB.

Global Instance M_ret {DB} : MRet (M DB) := fun _ a s => (Return a, s).
Global Instance M_bind {DB} : MBind (M DB) := fun _ _ f m s =>
  match m s with
  | (Return a, s') => f a s'
  | (Raise e, s') => (Raise e, s')
  end.

Definition lift {DB A} (r : result A) : M DB A := fun s => (r, s).

Definition record {DB} (c : call) : M DB unit :=
  fun s => (Return tt, State (db s) (calls s ++ [c])).

(** A collaborator acting on the transaction store. *)
Definition on_db {DB A} (f : DB -> result A * DB) : M DB A :=
  fun s => let '(r, d) := f (db s) in (r, State d (calls s)).

(** [try: body except Exception as e: handler e]. *)
Definition try_except {DB A} (body : M DB A) (handler : exception -> M DB A)
  : M DB A :=
  fun s =>
    match body s with
    | (Return a, s') => (Return a, s')
    | (Raise e, s') => handler e s'
    end.

Section Gateway.

Context {DB : Type} (self : Gateway DB).

Definition handle_payment_succeeded (payment_id : string) : M DB unit :=
  _ ← record (HandlePaymentSucceeded payment_id);
  on_db (_on_payment_succeeded self payment_id).

Definition handle_payment_canceled (payment_id : string) : M DB unit :=
  _ ← record (HandlePaymentCanceled payment_id);
  on_db (_on_payment_canceled self payment_id).

Definition _extract_source_ip (request : Request) : string * string * string :=
  let x_forwarded_for := default "" (X_Forwarded_For request) in
  let remote_ip := default "" (remote request) in
  let ip :=
    if Str.truthy x_forwarded_for
    then Str.strip (Str.split_first "," x_forwarded_for)
    else remote_ip in
  (ip, x_forwarded_for, remote_ip).

Definition _normalize_status (value : status_object) : string :=
  match value with
  | WithValue v => Str.lower v
  | Plain text => Str.lower text
  end.

Definition _is_event_confirmed_by_api (payment_id event : string) : M DB bool :=
  found ← try_except
    (_ ← record (FindOne payment_id);
     payment ← lift (Payment_find_one self payment_id);
     mret (Some payment))
    (fun _ => mret None);
  match found with
  | None => mret false
  | Some payment =>
      let status := _normalize_status (status payment) in
      let paid := paid payment in
      let is_valid :=
        if String.eqb event PAYMENT_SUCCEEDED then String.eqb status "succeeded" && paid
        else if String.eqb event PAYMENT_CANCELED then String.eqb status "canceled"
        else false in
      mret is_valid
  end.

Definition webhook_handler (request : Request) : M DB Response :=
  try_except
    (notification_object ← lift (notification request);
     match object_id notification_object with
     | None => mret (Response_ 400)
     | Some payment_id =>
         if negb (Str.truthy payment_id) then mret (Response_ 400)
         else
           let '(source_ip, x_forwarded_for, remote_ip) := _extract_source_ip request in
           source_ip_trusted ←
             (if Str.truthy source_ip then lift (is_ip_trusted self source_ip)
              else mret false);
           confirmed ← _is_event_confirmed_by_api payment_id (event notification_object);
           if negb confirmed then mret (Response_ 403)
           else if String.eqb (event notification_object) PAYMENT_SUCCEEDED then
             _ ← handle_payment_succeeded payment_id;
             mret (Response_ 200)
           else if String.eqb (event notification_object) PAYMENT_CANCELED then
             _ ← handle_payment_canceled payment_id;
             mret (Response_ 200)
           else mret (Response_ 400)
     end)
    (fun _ => mret (Response_ 400)).

End Gateway.

(** *** The situations the properties are about *)

(** The request carries a payment id: the body parses and the id of its
    object is a non-empty string. *)
Definition carries_payment_id (request : Request) (n : WebhookNotification)
    (payment_id : string) : Prop :=
  notification request = Return n /\ object_id n = Some payment_id /\ payment_id <> "".

(** The trust evaluation of the source address, which comes before the
    lookup, completes: the address is empty (the helper is not asked) or the
    helper returns, trusted or not. *)
Definition source_ip_evaluated {DB} (self : Gateway DB) (request : Request) : Prop :=
  let ip := fst (fst (_extract_source_ip request)) in
  ip = "" \/ returns (is_ip_trusted self ip).

(** The handler gets as far as the lookup of [payment_id]: the request
    carries that id and the evaluation of its source address completes. *)
Definition reaches_lookup {DB} (self : Gateway DB) (request : Request)
    (n : WebhookNotification) (payment_id : string) : Prop :=
  carries_payment_id request n payment_id /\ source_ip_evaluated self request.

(** The remote status matches the claimed event, in the words of the
    specification. *)
Definition remote_confirms (event : string) (payment : PaymentResponse) : Prop :=
  (event = PAYMENT_SUCCEEDED
   /\ _normalize_status (status payment) = "succeeded" /\ paid payment = true)
  \/ (event = PAYMENT_CANCELED /\ _normalize_status (status payment) = "canceled").

(** The same as a test; it is the [is_valid] of [_is_event_confirmed_by_api]. *)
Definition remote_confirmsb (event : string) (payment : PaymentResponse) : bool :=
  if String.eqb event PAYMENT_SUCCEEDED
  then String.eqb (_normalize_status (status payment)) "succeeded" && paid payment
  else if String.eqb event PAYMENT_CANCELED
       then String.eqb (_normalize_status (status payment)) "canceled"
       else false.

End Yookassa.

(** ** scripts/generate_legacy_promocodes.py *)

Module Promocodes.

Definition CHARSET : string := "ABCDEFGHIJKLMNOPQRSTUVWXYZ0123456789".
Definition MS_PER_DAY : Z := 24 * 60 * 60 * 1000.

(** The [argparse.Namespace] of [parse_args]. The three paths are held as
    [pathlib] prints them; they name the three files of [world] below, which
    are taken to be three different files. *)
Record Namespace : Type := {
  args_xui_db : string;
  args_bot_db : string;
  args_output_csv : string;
  include_numeric_emails : bool;
  inbound_id : option Z;
  min_days : Z;
  unlimited_days : option Z;
  code_prefix : string;
  code_length : Z;
  dry_run : bool
}.

Definition normalize_days (expiry_time_ms now_ms min_days : Z) : result Z :=
  let remaining_ms := expiry_time_ms - now_ms in
  if remaining_ms <=? 0 then Return 0
  else
    quotient ← int_true_divide remaining_ms MS_PER_DAY;
    let remaining_days := math_ceil quotient in
    if remaining_days <? min_days then Return 0
    else Return remaining_days.

(** *** The source store *)

(** One object of the ["clients"] array, with the three fields the script
    reads: [str(client.get("email", ""))], [str(client.get("id", ""))] and
    [int(client.get("expiryTime", 0) or 0)]. *)
Record client : Type := {
  client_email : string;
  client_id : string;
  expiryTime : Z
}.

(** The [settings] column: text that [json.loads] rejects, or an object with
    its [settings.get("clients", [])]. *)
Inductive settings_json : Type :=
| JSONDecodeError
| Settings (clients : list client).

(** A row of [SELECT id, settings FROM inbounds]. *)
Record inbound : Type := { ib_id : Z; settings : settings_json }.

(** *** The dictionaries built by the collection *)

Record entry : Type := {
  entry_inbound_id : Z;
  entry_email : string;
  entry_client_id : string;
  entry_days : Z
}.

Record skip : Type := {
  skip_inbound_id : Z;
  skip_email : string;
  skip_client_id : string;
  skip_reason : string
}.

(** [selected : dict[str, dict]], in insertion order. *)
Fixpoint dict_get (d : list (string * entry)) (k : string) : option entry :=
  match d with
  | [] => None
  | (k', v) :: d' => if String.eqb k' k then Some v else dict_get d' k
  end.

(** [d[k] = v]: an existing key keeps its position, a new key goes last. *)
Fixpoint dict_set (d : list (string * entry)) (k : string) (v : entry)
  : list (string * entry) :=
  match d with
  | [] => [(k, v)]
  | (k', v') :: d' =>
      if String.eqb k' k then (k, v) :: d' else (k', v') :: dict_set d' k v
  end.

Definition dict_values (d : list (string * entry)) : list entry := List.map snd d.

(** A [for] loop whose body may raise. *)
Fixpoint for_each {A S : Type} (body : S -> A -> result S) (l : list A) (s : S)
  : result S :=
  match l with
  | [] => Return s
  | x :: l' => s' ← body s x; for_each body l' s'
  end.

(** Where the body of the loop over the clients gets to before line 165: a
    [continue], with the record it appended to [skipped] if any, or the
    candidate row that goes on to line 165. *)
Inductive verdict : Type :=
| Continue (skipped : option skip)
| Candidate (row : entry).

(** Lines 123-163. *)
Definition examine_client (include_numeric_emails : bool)
    (min_days : Z) (unlimited_days : option Z) (now_ms ib : Z) (c : client)
  : result verdict :=
  let email := Str.strip (client_email c) in
  let cid := Str.strip (client_id c) in
  if negb (Str.truthy email) then
    Return (Continue (Some (Build_skip ib "" cid "empty_email")))
  else if Str.isdigit email && negb include_numeric_emails then
    Return (Continue None)
  else
    let expiry_ms := expiryTime c in
    if expiry_ms <=? 0 then
      match unlimited_days with
      | None => Return (Continue (Some (Build_skip ib email cid "unlimited_skipped")))
      | Some unlimited =>
          let days := Z.max unlimited min_days in
          Return (Candidate (Build_entry ib email cid days))
      end
    else
      days ← normalize_days expiry_ms now_ms min_days;
      if days <=? 0 then
        Return (Continue (Some (Build_skip ib email cid "expired_or_too_small")))
      else
        Return (Candidate (Build_entry ib email cid days)).

(** Lines 165-172: the candidate is stored unless its email already has a
    row with at least as many days. *)
Definition select (selected : list (string * entry)) (row : entry)
  : list (string * entry) :=
  match dict_get selected (entry_email row) with
  | None => dict_set selected (entry_email row) row
  | Some existing =>
      if entry_days existing <? entry_days row
      then dict_set selected (entry_email row) row
      else selected
  end.

(** The body of the loop over the clients of one inbound (lines 123-172);
    the state is [(selected, skipped)]. *)
Definition collect_client (include_numeric_emails : bool)
    (min_days : Z) (unlimited_days : option Z) (now_ms ib : Z)
    (st : list (string * entry) * list skip) (c : client)
  : result (list (string * entry) * list skip) :=
  v ← examine_client include_numeric_emails min_days unlimited_days now_ms ib c;
  match v with
  | Continue None => Return st
  | Continue (Some record) => Return (fst st, snd st ++ [record])
  | Candidate row => Return (select (fst st) row, snd st)
  end.

(** The body of the loop over the inbound rows (lines 108-172). *)
Definition collect_inbound (include_numeric_emails : bool)
    (min_days : Z) (unlimited_days : option Z) (now_ms : Z)
    (st : list (string * entry) * list skip) (row : inbound)
  : result (list (string * entry) * list skip) :=
  match settings row with
  | JSONDecodeError =>
      Return (fst st, snd st ++ [Build_skip (ib_id row) "" "" "broken_settings_json"])
  | Settings clients =>
      for_each
        (collect_client include_numeric_emails min_days unlimited_days now_ms (ib_id row))
        clients st
  end.

(** [sorted(rows, key=...)]: a stable sort, here by insertion; [key x <= key y]
    is the comparison of Python strings. *)
Fixpoint sorted_insert (key : entry -> string) (x : entry) (l : list entry)
  : list entry :=
  match l with
  | [] => [x]
  | y :: l' =>
      if String.leb (key x) (key y) then x :: y :: l'
      else y :: sorted_insert key x l'
  end.

Fixpoint sorted (key : entry -> string) (l : list entry) : list entry :=
  match l with
  | [] => []
  | x :: l' => sorted_insert key x (sorted key l')
  end.

(** The rows of the query of lines 103-106. *)
Definition fetch_inbounds (inbound_id : option Z) (inbounds : list inbound)
  : list inbound :=
  match inbound_id with
  | None => inbounds
  | Some i => List.filter (fun row => ib_id row =? i) inbounds
  end.

Definition collect_legacy_clients (inbounds : list inbound)
    (include_numeric_emails : bool) (inbound_id : option Z)
    (min_days : Z) (unlimited_days : option Z) (now_ms : Z)
  : result (list entry * list skip) :=
  let rows := fetch_inbounds inbound_id inbounds in
  '(selected, skipped) ←
    for_each (collect_inbound include_numeric_emails min_days unlimited_days now_ms)
      rows ([], []);
  let result := sorted (fun row => Str.lower (entry_email row)) (dict_values selected) in
  Return (result, skipped).

(** *** Code assignment *)

(** A row of the [promocodes] table of the target store, with the columns
    the script reads or writes. *)
Record promocode_row : Type := {
  code : string;
  duration : Z;
  is_activated : Z;
  activated_by : option Z;
  created_at : string
}.

(** [secrets.choice(seq)] when the generator draws [r]: the element at index
    [r mod len(seq)]. The sequence is never empty here. *)
Definition secrets_choice (seq : string) (r : nat) : ascii :=
  match String.get (r mod String.length seq)%nat seq with
  | Some c => c
  | None => Ascii.zero
  end.

(** ["".join(secrets.choice(CHARSET) for _ in range(n))], reading the draws
    of the generator from position [pos] on. *)
Fixpoint random_suffix (entropy : nat -> nat) (pos n : nat) : string :=
  match n with
  | O => EmptyString
  | S n' => String (secrets_choice CHARSET (entropy pos)) (random_suffix entropy (S pos) n')
  end.

(** The [while True] loop of [generate_code], run for at most [fuel] rounds;
    [None] means that it is still running after them. It returns the code,
    the set with the code added, and the position in the draws. *)
Fixpoint generate_code_loop (fuel : nat) (entropy : nat -> nat) (pos : nat)
    (existing_codes : gset string) (prefix : string) (suffix_len : nat)
  : option (string * gset string * nat) :=
  match fuel with
  | O => None
  | S fuel' =>
      let suffix := random_suffix entropy pos suffix_len in
      let code := String.append prefix suffix in
      if decide (code ∈ existing_codes)
      then generate_code_loop fuel' entropy (pos + suffix_len)%nat
             existing_codes prefix suffix_len
      else Some (code, {[code]} ∪ existing_codes, (pos + suffix_len)%nat)
  end.

Definition generate_code (fuel : nat) (entropy : nat -> nat) (pos : nat)
    (existing_codes : gset string) (prefix : string) (total_length : Z)
  : option (string * gset string * nat) :=
  let prefix := Str.upper prefix in
  let suffix_len := Z.to_nat (Z.max (total_length - Z.of_nat (String.length prefix)) 1) in
  generate_code_loop fuel entropy pos existing_codes prefix suffix_len.

(** The loop of [main] that stores [row["promocode"]] in every prepared row
    (lines 269-274); the set of codes is shared by all its rounds. *)
Fixpoint assign_codes (fuel : nat) (entropy : nat -> nat) (pos : nat)
    (existing_codes : gset string) (prefix : string) (total_length : Z)
    (prepared : list entry)
  : option (list (entry * string) * gset string * nat) :=
  match prepared with
  | [] => Some ([], existing_codes, pos)
  | row :: rest =>
      match generate_code fuel entropy pos existing_codes prefix total_length with
      | None => None
      | Some (promocode, existing_codes', pos') =>
          match assign_codes fuel entropy pos' existing_codes' prefix total_length rest with
          | None => None
          | Some (rows, existing_codes'', pos'') =>
              Some ((row, promocode) :: rows, existing_codes'', pos'')
          end
      end
  end.

(** *** Reporting and commit *)

Inductive cell : Type :=
| Int (z : Z)
| Text (s : string).

(** What is outside the process: the two stores ([None]: no such file), the
    report file, and the [INSERT] statements executed on the target store,
    each with its two parameters, also those that raised or were rolled
    back. *)
Record world : Type := {
  xui_db : option (list inbound);
  bot_db : option (list promocode_row);
  output_csv : option (list (list cell));
  executed_inserts : list (string * Z)
}.

(** The clock, the random generator, and what SQLite and the file system
    raise, if anything, at the operations on the target store and on the
    report: at [SELECT code FROM promocodes], at creating the directory or
    opening the report, at writing line [n] of the report (the header is
    line 0), at an [INSERT] with given parameters on the table as the
    transaction has it, and at [conn.commit()]. *)
Record environment : Type := {
  now_ms : Z;
  datetime_now : string;
  entropy : nat -> nat;
  select_fault : option exception;
  open_fault : option exception;
  write_fault : option (nat * exception);
  insert_fault : list promocode_row -> string * Z -> option exception;
  commit_fault : option exception
}.

Definition load_existing_codes (env : environment) (promocodes : list promocode_row)
  : result (gset string) :=
  match select_fault env with
  | Some e => Raise e
  | None => Return (list_to_set (List.map code promocodes))
  end.

Definition fieldnames : list cell :=
  [Text "email"; Text "inbound_id"; Text "client_id"; Text "days";
   Text "promocode"; Text "status"].

Definition prepared_line (row : entry * string) : list cell :=
  [Text (entry_email (fst row)); Int (entry_inbound_id (fst row));
   Text (entry_client_id (fst row)); Int (entry_days (fst row));
   Text (snd row); Text "prepared"].

Definition skipped_line (row : skip) : list cell :=
  [Text (skip_email row); Int (skip_inbound_id row); Text (skip_client_id row);
   Text ""; Text ""; Text (String.append "skipped:" (skip_reason row))].

(** The world with the report replaced. *)
Definition with_output_csv (w : world) (lines : list (list cell)) : world :=
  {| xui_db := xui_db w;
     bot_db := bot_db w;
     output_csv := Some lines;
     executed_inserts := executed_inserts w |}.

(** [write_csv]: when the file cannot be opened it is left as it was; when
    writing line [n] raises, the file holds the lines before it. *)
Definition write_csv (env : environment) (w : world) (rows : list (entry * string))
    (skipped_rows : list skip) : result unit * world :=
  match open_fault env with
  | Some e => (Raise e, w)
  | None =>
      let lines :=
        fieldnames :: List.map prepared_line rows ++ List.map skipped_line skipped_rows in
      match write_fault env with
      | Some (n, e) =>
          if (n <? length lines)%nat then (Raise e, with_output_csv w (firstn n lines))
          else (Return tt, with_output_csv w lines)
      | None => (Return tt, with_output_csv w lines)
      end
  end.

(** The loop of [insert_promocodes] inside the transaction: each round
    executes one [INSERT INTO promocodes (code, duration, is_activated,
    activated_by, created_at) VALUES (?, ?, 0, NULL, datetime('now'))]. It
    gives the table as the transaction has it at the end, or the exception of
    the statement that raised, and the statements executed. *)
Fixpoint execute_inserts (env : environment) (prepared_rows : list (entry * string))
    (table : list promocode_row) (executed : list (string * Z))
  : result (list promocode_row) * list (string * Z) :=
  match prepared_rows with
  | [] => (Return table, executed)
  | row :: rest =>
      let parameters := (snd row, entry_days (fst row)) in
      match insert_fault env table parameters with
      | Some e => (Raise e, executed ++ [parameters])
      | None =>
          execute_inserts env rest
            (table ++ [Build_promocode_row (snd row) (entry_days (fst row)) 0 None
                         (datetime_now env)])
            (executed ++ [parameters])
      end
  end.

(** The world after the transaction: the table given, or the table as it
    was after a rollback, and the statements executed. *)
Definition after_transaction (w : world) (table : option (list promocode_row))
    (executed : list (string * Z)) : world :=
  {| xui_db := xui_db w;
     bot_db := table;
     output_csv := output_csv w;
     executed_inserts := executed |}.

(** [insert_promocodes]: the [with] block commits when the loop and
    [conn.commit()] return, and rolls back when either raises, which leaves
    the table as it was. [main] calls it only on a target store that exists;
    where there is none, [sqlite3.connect] makes an empty database, in which
    the first [INSERT] finds no table and raises. *)
Definition insert_promocodes (env : environment) (w : world)
    (prepared_rows : list (entry * string)) : result unit * world :=
  match bot_db w with
  | None =>
      match prepared_rows with
      | [] => (Return tt, w)
      | row :: _ =>
          (Raise (Exception "OperationalError"),
           after_transaction w None
             (executed_inserts w ++ [(snd row, entry_days (fst row))]))
      end
  | Some table =>
      let run := execute_inserts env prepared_rows table (executed_inserts w) in
      match fst run with
      | Raise e => (Raise e, after_transaction w (Some table) (snd run))
      | Return table' =>
          match commit_fault env with
          | Some e => (Raise e, after_transaction w (Some table) (snd run))
          | None => (Return tt, after_transaction w (Some table') (snd run))
          end
      end
  end.

(** How the process ends: the value [main] returns, a [SystemExit] with its
    message, or an exception nobody catches. *)
Inductive exit : Type :=
| Exit (status : Z)
| SystemExit (msg : string)
| Uncaught (e : exception).

(** [main]: [None] while a [generate_code] is still looping after [fuel]
    rounds; otherwise how the process ends and the world it leaves. *)
Definition main (fuel : nat) (args : Namespace) (env : environment) (w : world)
  : option (exit * world) :=
  match xui_db w with
  | None => Some (SystemExit (String.append "x-ui DB not found: " (args_xui_db args)), w)
  | Some inbounds =>
      match bot_db w with
      | None => Some (SystemExit (String.append "bot DB not found: " (args_bot_db args)), w)
      | Some promocodes =>
          match collect_legacy_clients inbounds (include_numeric_emails args)
                  (inbound_id args) (min_days args) (unlimited_days args)
                  (now_ms env) with
          | Raise e => Some (Uncaught e, w)
          | Return (prepared, skipped) =>
              match load_existing_codes env promocodes with
              | Raise e => Some (Uncaught e, w)
              | Return existing_codes =>
                  match assign_codes fuel (entropy env) 0 existing_codes
                          (code_prefix args) (code_length args) prepared with
                  | None => None
                  | Some (prepared, _, _) =>
                      match write_csv env w prepared skipped with
                      | (Raise e, w) => Some (Uncaught e, w)
                      | (Return _, w) =>
                          if dry_run args then Some (Exit 0, w)
                          else
                            match insert_promocodes env w prepared with
                            | (Raise e, w) => Some (Uncaught e, w)
                            | (Return _, w) => Some (Exit 0, w)
                            end
                      end
                  end
              end
          end
      end
  end.

(** *** The situations the properties are about *)

(** The client gets past the two tests on its email: it is not blank, and it
    is not all digits unless numeric emails are included. *)
Definition passes_email_tests (include_numeric_emails : bool) (c : client) : Prop :=
  Str.strip (client_email c) <> ""
  /\ (Str.isdigit (Str.strip (client_email c)) = false \/ include_numeric_emails = true).

(** The candidates of the clients of one inbound, in the order in which they
    reach line 165. *)
Fixpoint client_candidates (include_numeric_emails : bool)
    (min_days : Z) (unlimited_days : option Z) (now_ms ib : Z) (clients : list client)
  : result (list entry) :=
  match clients with
  | [] => Return []
  | c :: rest =>
      v ← examine_client include_numeric_emails min_days unlimited_days now_ms ib c;
      tl ← client_candidates include_numeric_emails min_days unlimited_days now_ms ib rest;
      Return match v with
             | Candidate row => row :: tl
             | Continue _ => tl
             end
  end.

(** The candidates of a run. *)
Fixpoint candidates (include_numeric_emails : bool)
    (min_days : Z) (unlimited_days : option Z) (now_ms : Z) (rows : list inbound)
  : result (list entry) :=
  match rows with
  | [] => Return []
  | row :: rest =>
      hd ← match settings row with
           | JSONDecodeError => Return []
           | Settings clients =>
               client_candidates include_numeric_emails min_days unlimited_days
                 now_ms (ib_id row) clients
           end;
      tl ← candidates include_numeric_emails min_days unlimited_days now_ms rest;
      Return (hd ++ tl)
  end.

(** [selected] against the candidates seen so far: one row per email, each
    row filed under its own email, each a candidate that no candidate of the
    same email exceeds, and every candidate's email present. *)
Definition selection_of (selected : list (string * entry)) (cands : list entry) : Prop :=
  List.NoDup (List.map fst selected)
  /\ (forall k v, In (k, v) selected ->
        entry_email v = k /\ In v cands
        /\ forall e, In e cands -> entry_email e = k -> entry_days e <= entry_days v)
  /\ (forall e, In e cands -> In (entry_email e) (List.map fst selected)).

(** Every expiry of the store lies less than [2^27] days after [now_ms]. *)
Definition expiries_below_horizon (now_ms : Z) (rows : list inbound) : Prop :=
  forall row clients c,
    In row rows -> settings row = Settings clients -> In c clients ->
    expiryTime c - now_ms < 2 ^ 27 * MS_PER_DAY.







(** The length of the suffix and the code that [generate_code] tries in
    round [k] (from 0) when the draws are read from [pos]. *)
Definition suffix_length (prefix : string) (total_length : Z) : nat :=
  Z.to_nat (Z.max (total_length - Z.of_nat (String.length (Str.upper prefix))) 1).

Definition attempt (entropy : nat -> nat) (pos : nat) (prefix : string)
    (total_length : Z) (k : nat) : string :=
  String.append (Str.upper prefix)
    (random_suffix entropy (pos + k * suffix_length prefix total_length)
       (suffix_length prefix total_length)).


(** [c] is a character of [CHARSET]. *)
Definition in_charset (c : ascii) : bool :=
  existsb (Ascii.eqb c) (list_ascii_of_string CHARSET).

(** [suffix] is one of the suffixes [generate_code] can draw. *)
Definition possible_suffix (prefix : string) (total_length : Z) (suffix : string) : Prop :=
  String.length suffix = suffix_length prefix total_length
  /\ Str.forallb in_charset suffix = true.

(** The position of [c] in [s] (the length of [s] if it is not there). *)
Fixpoint index_in (c : ascii) (s : string) : nat :=
  match s with
  | EmptyString => O
  | String c' s' => if Ascii.eqb c' c then O else S (index_in c s')
  end.

(** Draws under which the round that starts at [pos] spells [suffix]. *)
Definition draws_spelling (pos : nat) (suffix : string) : nat -> nat :=
  fun i =>
    match String.get (i - pos) suffix with
    | Some c => index_in c CHARSET
    | None => O
    end.

(** What every generated code looks like. *)
Definition well_formed_code (prefix : string) (total_length : Z) (code : string) : Prop :=
  Str.startswith (Str.upper prefix) code = true
  /\ String.length code
     = (String.length (Str.upper prefix) + suffix_length prefix total_length)%nat.

End Promocodes.

(** ** app/bot/payment_gateways/yookassa.py: [create_payment] *)

Module Checkout.

(** Modelled from the spec: the statuses of a payment record,
    [pending|succeeded|canceled]; [TransactionStatus] is declared in
    [app.bot.utils.constants], which is not among the sources. *)
Inductive TransactionStatus : Type :=
| PENDING
| SUCCEEDED
| CANCELED.

(** What [create_payment] reads of its [SubscriptionData]: three fields,
    [str(data.price)] and [data.pack()]. *)
Record SubscriptionData : Type := {
  user_id : Z;
  devices : Z;
  duration : Z;
  price : string;
  pack : string
}.

(** [{"value": ..., "currency": ...}]. *)
Record Amount : Type := { value : string; currency : string }.

Record ReceiptItem : Type := {
  item_description : string;
  quantity : Z;
  item_amount : Amount;
  vat_code : Z
}.

(** [Receipt(customer={"email": ...}, items=[...])]. *)
Record Receipt : Type := { customer_email : string; items : list ReceiptItem }.

Inductive ConfirmationType : Type := REDIRECT.

Record PaymentRequest : Type := {
  amount : Amount;
  confirmation_type : ConfirmationType;
  return_url : string;
  capture : bool;
  save_payment_method : bool;
  description : string;
  receipt : Receipt
}.

(** The answer of [Payment.create]: [response.id] and the dictionary
    [response.confirmation]. *)
Record PaymentCreated : Type := {
  id : string;
  confirmation : list (string * string)
}.

(** The keyword arguments of [Transaction.create]. *)
Record Transaction : Type := {
  tg_id : Z;
  subscription : string;
  payment_id : string;
  status : TransactionStatus
}.

(** [d[k]]: the value, or [KeyError]. *)
Fixpoint getitem (d : list (string * string)) (k : string) : result string :=
  match d with
  | [] => Raise (Exception "KeyError")
  | (k', v) :: d' => if String.eqb k' k then Return v else getitem d' k
  end.

(** The collaborators: [(await self.bot.get_me()).username], the shop's
    email and the code of [Currency.RUB] from the configuration, the
    translated invoice text formatted for a number of devices and a duration,
    [Payment.create], and [Transaction.create] acting on the transaction
    store [DB]. *)
Record Services (DB : Type) : Type := {
  get_me_username : result string;
  shop_EMAIL : string;
  currency_code : string;
  invoice_description : Z -> Z -> string;
  Payment_create : PaymentRequest -> result PaymentCreated;
  Transaction_create : Transaction -> DB -> result unit * DB
}.
Arguments get_me_username {DB} _.
Arguments shop_EMAIL {DB} _.
Arguments currency_code {DB} _.
Arguments invoice_description {DB} _ _ _.
Arguments Payment_create {DB} _ _.
Arguments Transaction_create {DB} _ _ _.

(** The calls to the provider and to the store, in order. *)
Inductive call : Type :=
| PaymentCreate (request : PaymentRequest)
| TransactionCreate (transaction : Transaction).

Record state (DB : Type) : Type := State { db : DB; calls : list call }.
Arguments State {DB} db calls.
Arguments db {DB} _.
Arguments calls {DB} _.

Definition M (DB A : Type) : Type := state DB -> result A * state DB.

Global Instance M_ret {DB} : MRet (M DB) := fun _ a s => (Return a, s).
Global Instance M_bind {DB} : MBind (M DB) := fun _ _ f m s =>
  match m s with
  | (Return a, s') => f a s'
  | (Raise e, s') => (Raise e, s')
  end.

Definition lift {DB A} (r : result A) : M DB A := fun s => (r, s).

Definition record {DB} (c : call) : M DB unit :=
  fun s => (Return tt, State (db s) (calls s ++ [c])).

Definition on_db {DB A} (f : DB -> result A * DB) : M DB A :=
  fun s => let '(r, d) := f (db s) in (r, State d (calls s)).

Section Gateway.

Context {DB : Type} (self : Services DB).

(** The request that [create_payment] builds (lines 62-90). *)
Definition payment_request (bot_username : string) (data : SubscriptionData)
  : PaymentRequest :=
  let redirect_url := String.append "https://t.me/" bot_username in
  let description := invoice_description self (devices data) (duration data) in
  let price := price data in
  let receipt :=
    {| customer_email := shop_EMAIL self;
       items :=
         [ {| item_description := description;
              quantity := 1;
              item_amount := {| value := price; currency := currency_code self |};
              vat_code := 1 |} ] |} in
  {| amount := {| value := price; currency := currency_code self |};
     confirmation_type := REDIRECT;
     return_url := redirect_url;
     capture := true;
     save_payment_method := false;
     description := description;
     receipt := receipt |}.

Definition create_payment (data : SubscriptionData) : M DB string :=
  bot_username ← lift (get_me_username self);
  let request := payment_request bot_username data in
  _ ← record (PaymentCreate request);
  response ← lift (Payment_create self request);
  let transaction :=
    {| tg_id := user_id data;
       subscription := pack data;
       payment_id := id response;
       status := PENDING |} in
  _ ← record (TransactionCreate transaction);
  _ ← on_db (Transaction_create self transaction);
  pay_url ← lift (getitem (confirmation response) "confirmation_url");
  mret pay_url.

End Gateway.

End Checkout.

(** ** Further situations *)

Module Situations.

(** The answer after a status update: 200 when it returned, 400 when it
    raised. *)
Definition answer_after (r : result unit) : Z :=
  match r with
  | Return _ => 200
  | Raise _ => 400
  end.

(** Two gateways with the same provider and the same status updates; their
    address helpers may differ. *)
Definition same_collaborators {DB} (self1 self2 : Yookassa.Gateway DB) : Prop :=
  (forall payment_id,
      Yookassa.Payment_find_one self1 payment_id = Yookassa.Payment_find_one self2 payment_id)
  /\ (forall payment_id d,
        Yookassa._on_payment_succeeded self1 payment_id d
        = Yookassa._on_payment_succeeded self2 payment_id d)
  /\ (forall payment_id d,
        Yookassa._on_payment_canceled self1 payment_id d
        = Yookassa._on_payment_canceled self2 payment_id d).

(** No comma in [s]. *)
Definition comma_free (s : string) : Prop :=
  Str.forallb (fun c => negb (Ascii.eqb c ",")) s = true.

(** The client is left out without a record: its email is not blank and all
    digits, and numeric emails are not included. *)
Definition dropped (include_numeric_emails : bool) (c : Promocodes.client) : bool :=
  Str.truthy (Str.strip (Promocodes.client_email c))
  && Str.isdigit (Str.strip (Promocodes.client_email c))
  && negb include_numeric_emails.

(** The clients of the rows whose settings parse, and the rows whose
    settings do not. *)
Definition clients_of (rows : list Promocodes.inbound) : list Promocodes.client :=
  flat_map
    (fun row =>
       match Promocodes.settings row with
       | Promocodes.Settings clients => clients
       | Promocodes.JSONDecodeError => []
       end) rows.

Definition broken (rows : list Promocodes.inbound) : list Promocodes.inbound :=
  List.filter
    (fun row =>
       match Promocodes.settings row with
       | Promocodes.JSONDecodeError => true
       | Promocodes.Settings _ => false
       end) rows.

(** The four reasons of a skip record. *)
Definition reasons : list string :=
  ["broken_settings_json"; "empty_email"; "unlimited_skipped"; "expired_or_too_small"].

(** The order of the report: by lower-cased email. *)
Definition email_order (x y : Promocodes.entry) : Prop :=
  String.leb (Str.lower (Promocodes.entry_email x)) (Str.lower (Promocodes.entry_email y))
  = true.

End Situations.

(** ** Sample data *)

Module Samples.

Import Yookassa.

(** A gateway whose store lists the status updates made so far. The lookup
    knows three payments; the address helper rejects text that is not an
    address by raising. *)
Definition shop : Gateway (list (string * string)) := {|
  is_ip_trusted ip :=
    if String.eqb ip "185.71.76.1" then Return true
    else if String.eqb ip "not-an-ip" then Raise (Exception "AddrFormatError")
    else Return false;
  Payment_find_one payment_id :=
    if String.eqb payment_id "p-paid" then Return (Build_PaymentResponse (WithValue "succeeded") true)
    else if String.eqb payment_id "p-canceled" then Return (Build_PaymentResponse (Plain "CANCELED") false)
    else if String.eqb payment_id "p-pending" then Return (Build_PaymentResponse (WithValue "pending") false)
    else Raise (Exception "NotFoundError");
  _on_payment_succeeded payment_id d := (Return tt, d ++ [(payment_id, "succeeded")]);
  _on_payment_canceled payment_id d := (Return tt, d ++ [(payment_id, "canceled")])
|}.

Definition webhook (event : string) (id : option string) (forwarded : option string)
  : Request :=
  {| notification := Return (Build_WebhookNotification event id);
     X_Forwarded_For := forwarded;
     remote := Some "10.0.0.7" |}.

Definition idle : state (list (string * string)) := State [] [].

(** The clock of the samples, and a source store: one inbound with the same
    email twice (5 and 12 days left), a numeric email, an unlimited client, a
    blank email and an expired client, and one inbound with broken
    settings. *)
Definition clock : Z := 1700000000000.

Definition legacy_inbounds : list Promocodes.inbound :=
  [ Promocodes.Build_inbound 1
      (Promocodes.Settings
         [ Promocodes.Build_client " user1@x " "c1" (clock + 5 * Promocodes.MS_PER_DAY);
           Promocodes.Build_client "12345" "c2" (clock + 5 * Promocodes.MS_PER_DAY);
           Promocodes.Build_client "user1@x" "c3" (clock + 12 * Promocodes.MS_PER_DAY);
           Promocodes.Build_client "Alpha" "c4" 0;
           Promocodes.Build_client "  " "c5" 0;
           Promocodes.Build_client "old" "c6" (clock - 1) ]);
    Promocodes.Build_inbound 2 Promocodes.JSONDecodeError ].

(** One inbound with a legacy client and a numeric email, both with five
    days left. *)
Definition two_clients : list Promocodes.inbound :=
  [ Promocodes.Build_inbound 1
      (Promocodes.Settings
         [ Promocodes.Build_client "user1@x" "u1" (clock + 5 * Promocodes.MS_PER_DAY);
           Promocodes.Build_client "12345" "u2" (clock + 5 * Promocodes.MS_PER_DAY) ]) ].

(** A store with one unlimited client. *)
Definition unlimited_inbounds (email : string) : list Promocodes.inbound :=
  [ Promocodes.Build_inbound 7
      (Promocodes.Settings [ Promocodes.Build_client email "c9" 0 ]) ].

(** Two prepared rows, and a target store that already has one code. *)
Definition prepared_rows : list Promocodes.entry :=
  [ Promocodes.Build_entry 1 "alice@x" "c1" 5;
    Promocodes.Build_entry 1 "bob@x" "c2" 12 ].

Definition taken_codes : gset string := {[ "MIGAHOV29GN" ]}.

(** Draws that walk through the alphabet in steps of seven, and draws that
    always pick the first character. *)
Definition stepping_draws : nat -> nat := fun i => (i * 7)%nat.
Definition constant_draws : nat -> nat := fun _ => O.
Definition counting_draws : nat -> nat := fun i => i.

(** Arguments as [parse_args] gives them by default, the clock and
    generator of a run, and a world with the sample source store and a
    target store that has one code. *)
Definition default_args : Promocodes.Namespace :=
  {| Promocodes.args_xui_db := "/etc/x-ui/x-ui.db";
     Promocodes.args_bot_db := "app/data/bot_database.sqlite3";
     Promocodes.args_output_csv := "legacy_promocodes_20231114_221320.csv";
     Promocodes.include_numeric_emails := false;
     Promocodes.inbound_id := None;
     Promocodes.min_days := 1;
     Promocodes.unlimited_days := None;
     Promocodes.code_prefix := "MIG";
     Promocodes.code_length := 11;
     Promocodes.dry_run := false |}.

Definition sample_environment : Promocodes.environment :=
  {| Promocodes.now_ms := clock;
     Promocodes.datetime_now := "2023-11-14 22:13:20";
     Promocodes.entropy := stepping_draws;
     Promocodes.select_fault := None;
     Promocodes.open_fault := None;
     Promocodes.write_fault := None;
     Promocodes.insert_fault := fun _ _ => None;
     Promocodes.commit_fault := None |}.

Definition sample_world : Promocodes.world :=
  {| Promocodes.xui_db := Some legacy_inbounds;
     Promocodes.bot_db :=
       Some [Promocodes.Build_promocode_row "MIGAHOV29GN" 30 1 (Some 42) "2023-01-01 00:00:00"];
     Promocodes.output_csv := None;
     Promocodes.executed_inserts := [] |}.

(** The sample gateway with status updates that raise. *)
Definition failing_shop : Yookassa.Gateway (list (string * string)) := {|
  Yookassa.is_ip_trusted := Yookassa.is_ip_trusted shop;
  Yookassa.Payment_find_one := Yookassa.Payment_find_one shop;
  Yookassa._on_payment_succeeded payment_id d := (Raise (Exception "IntegrityError"), d);
  Yookassa._on_payment_canceled payment_id d := (Raise (Exception "IntegrityError"), d)
|}.






(** The sample gateway with an address helper that trusts nobody. *)
Definition distrustful_shop : Yookassa.Gateway (list (string * string)) := {|
  Yookassa.is_ip_trusted ip := Return false;
  Yookassa.Payment_find_one := Yookassa.Payment_find_one shop;
  Yookassa._on_payment_succeeded := Yookassa._on_payment_succeeded shop;
  Yookassa._on_payment_canceled := Yookassa._on_payment_canceled shop
|}.

(** A checkout whose provider answers with a hosted page, and one whose
    provider answers without a confirmation URL; the store lists the
    transactions created. *)
Definition checkout (confirmation : list (string * string))
  : Checkout.Services (list Checkout.Transaction) := {|
  Checkout.get_me_username := Return "vpn_bot";
  Checkout.shop_EMAIL := "shop@example.org";
  Checkout.currency_code := "RUB";
  Checkout.invoice_description devices duration := "VPN subscription";
  Checkout.Payment_create request :=
    Return (Checkout.Build_PaymentCreated "pay-1" confirmation);
  Checkout.Transaction_create transaction d := (Return tt, d ++ [transaction])
|}.

Definition order : Checkout.SubscriptionData :=
  {| Checkout.user_id := 42;
     Checkout.devices := 2;
     Checkout.duration := 30;
     Checkout.price := "199";
     Checkout.pack := "42:2:30:199" |}.

Definition no_calls : Checkout.state (list Checkout.Transaction) :=
  Checkout.State [] [].

(** A source store with three inbounds: emails that differ in case only, a
    numeric email, an unlimited client, and broken settings. *)
Definition mixed_inbounds : list Promocodes.inbound :=
  [ Promocodes.Build_inbound 3
      (Promocodes.Settings
         [ Promocodes.Build_client "bob@x" "b1" (clock + 3 * Promocodes.MS_PER_DAY + 1);
           Promocodes.Build_client "Alice@x" "a1" (clock + 40 * Promocodes.MS_PER_DAY);
           Promocodes.Build_client "777" "n1" (clock + Promocodes.MS_PER_DAY) ]);
    Promocodes.Build_inbound 4
      (Promocodes.Settings
         [ Promocodes.Build_client " carol " "k1" 0;
           Promocodes.Build_client "Bob@x" " b2 " (clock + 1);
           Promocodes.Build_client "" "e1" (clock + 1) ]);
    Promocodes.Build_inbound 5 Promocodes.JSONDecodeError ].

(** What the collection gives for it with 30 days for unlimited clients. *)
Definition mixed_rows : list Promocodes.entry :=
  [ Promocodes.Build_entry 3 "Alice@x" "a1" 40;
    Promocodes.Build_entry 3 "bob@x" "b1" 4;
    Promocodes.Build_entry 4 "Bob@x" "b2" 1;
    Promocodes.Build_entry 4 "carol" "k1" 30 ].

Definition mixed_skipped : list Promocodes.skip :=
  [ Promocodes.Build_skip 4 "" "e1" "empty_email";
    Promocodes.Build_skip 5 "" "" "broken_settings_json" ].



End Samples.

(** * Properties of the webhook handler *)

Section Webhook.

Import Yookassa.

Context {DB : Type}.
Implicit Types (self : Gateway DB) (request : Request) (s : state DB).

Lemma remote_confirms_spec event payment :
  remote_confirmsb event payment = true <-> remote_confirms event payment.
Proof.
  unfold remote_confirmsb, remote_confirms.
  destruct (String.eqb_spec event PAYMENT_SUCCEEDED) as [->|Hs].
  - rewrite andb_true_iff, String.eqb_eq. split.
    + intros [? ?]. left. auto.
    + intros [(_ & ? & ?)|(Hc & _)]; [auto | discriminate Hc].
  - destruct (String.eqb_spec event PAYMENT_CANCELED) as [->|Hc].
    + rewrite String.eqb_eq. split.
      * intros ?. right. auto.
      * intros [(He & _)|(_ & ?)]; [discriminate He | auto].
    + split; [discriminate |].
      intros [(? & _)|(? & _)]; contradiction.
Qed.

Lemma truthy_nonempty (x : string) : Str.truthy x = true <-> x <> "".
Proof. destruct x; simpl; split; congruence. Qed.

(** The lookup step alone: one [FindOne], the store untouched, and the
    verdict computed from what the lookup said. *)
Lemma is_event_confirmed_run self payment_id event s :
  _is_event_confirmed_by_api self payment_id event s =
  (Return match Payment_find_one self payment_id with
          | Return payment => remote_confirmsb event payment
          | Raise _ => false
          end,
   State (db s) (calls s ++ [FindOne payment_id])).
Proof.
  unfold _is_event_confirmed_by_api, try_except, mbind, M_bind, record, lift,
    mret, M_ret.
  cbn. destruct (Payment_find_one self payment_id); reflexivity.
Qed.

(** The handler from the lookup on, for a request that reaches it. *)
Lemma webhook_handler_run self request s n payment_id :
  reaches_lookup self request n payment_id ->
  webhook_handler self request s =
  let s1 := State (db s) (calls s ++ [FindOne payment_id]) in
  match Payment_find_one self payment_id with
  | Raise _ => (Return (Response_ 403), s1)
  | Return payment =>
      if negb (remote_confirmsb (event n) payment) then (Return (Response_ 403), s1)
      else if String.eqb (event n) PAYMENT_SUCCEEDED then
        try_except (_ ← handle_payment_succeeded self payment_id; mret (Response_ 200))
          (fun _ => mret (Response_ 400)) s1
      else if String.eqb (event n) PAYMENT_CANCELED then
        try_except (_ ← handle_payment_canceled self payment_id; mret (Response_ 200))
          (fun _ => mret (Response_ 400)) s1
      else (Return (Response_ 400), s1)
  end.
Proof.
  intros [(Hn & Hid & Hne) Hip].
  apply truthy_nonempty in Hne.
  unfold webhook_handler, try_except at 1.
  unfold mbind at 1, M_bind at 1, lift at 1. rewrite Hn, Hid, Hne. cbn [negb].
  unfold source_ip_evaluated in Hip.
  destruct (_extract_source_ip request) as [[ip xff] rem]. cbn [fst] in Hip.
  unfold mbind at 1, M_bind at 1.
  assert (Hstep : exists b,
    (if Str.truthy ip then lift (is_ip_trusted self ip) else mret false) s
    = (Return b, s)).
  { destruct Hip as [-> | [b Hb]].
    - exists false. reflexivity.
    - destruct (Str.truthy ip); [exists b | exists false];
        unfold lift; rewrite ?Hb; reflexivity. }
  destruct Hstep as [b ->].
  unfold mbind at 1, M_bind at 1. rewrite is_event_confirmed_run.
  destruct (Payment_find_one self payment_id) as [payment|e]; cbn [negb].
  - destruct (remote_confirmsb (event n) payment) eqn:Hc; cbn [negb]; [|reflexivity].
    destruct (String.eqb (event n) PAYMENT_SUCCEEDED).
    + unfold try_except. reflexivity.
    + destruct (String.eqb (event n) PAYMENT_CANCELED); reflexivity.
  - reflexivity.
Qed.

(** The handler catches everything: it always answers. *)
Lemma webhook_handler_answers self request s :
  exists response s', webhook_handler self request s = (Return response, s').
Proof.
  unfold webhook_handler, try_except.
  match goal with |- context [match ?m s with _ => _ end] => destruct (m s) as [[r|e] s'] end;
    eauto.
Qed.

(** A body that does not parse and a helper that raises on the source
    address are answered 400 by the handler's last clause, before any call. *)
Lemma webhook_unparsable_body self request s e :
  notification request = Raise e ->
  webhook_handler self request s = (Return (Response_ 400), s).
Proof.
  intros Hn. unfold webhook_handler, try_except, mbind, M_bind, lift.
  rewrite Hn. reflexivity.
Qed.

Lemma webhook_address_helper_raises self request s n payment_id e :
  carries_payment_id request n payment_id ->
  fst (fst (_extract_source_ip request)) <> "" ->
  is_ip_trusted self (fst (fst (_extract_source_ip request))) = Raise e ->
  webhook_handler self request s = (Return (Response_ 400), s).
Proof.
  intros (Hn & Hid & Hne) Hip Hraise.
  apply truthy_nonempty in Hne. apply truthy_nonempty in Hip.
  unfold webhook_handler, try_except at 1.
  unfold mbind at 1, M_bind at 1, lift at 1. rewrite Hn, Hid, Hne. cbn [negb].
  destruct (_extract_source_ip request) as [[ip xff] rem]. cbn [fst] in *.
  unfold mbind at 1, M_bind at 1. rewrite Hip. unfold lift at 1. rewrite Hraise.
  reflexivity.
Qed.

(** Unless the lookup confirms the event, the handler answers 403 or 400,
    calls nothing but the lookup, and leaves the store alone, whatever the
    address helper does. *)
Lemma webhook_unconfirmed_no_update self request s n payment_id :
  carries_payment_id request n payment_id ->
  match Payment_find_one self payment_id with
  | Return payment => remote_confirmsb (event n) payment = false
  | Raise _ => True
  end ->
  exists code s',
    webhook_handler self request s = (Return (Response_ code), s')
    /\ (code = 403 \/ code = 400)
    /\ db s' = db s
    /\ (calls s' = calls s \/ calls s' = calls s ++ [FindOne payment_id]).
Proof.
  intros Hid Hno.
  destruct (String.eqb_spec (fst (fst (_extract_source_ip request))) "") as [Hempty|Hip].
  - rewrite (webhook_handler_run self request s n payment_id
               (conj Hid (or_introl Hempty))).
    cbn zeta. destruct (Payment_find_one self payment_id) as [payment|e].
    + rewrite Hno. cbn. eexists _, _. split; [reflexivity|]. cbn. auto.
    + eexists _, _. split; [reflexivity|]. cbn. auto.
  - destruct (is_ip_trusted self (fst (fst (_extract_source_ip request))))
      as [b|e] eqn:Hhelper.
    + rewrite (webhook_handler_run self request s n payment_id
                 (conj Hid (or_intror (ex_intro _ b Hhelper)))).
      cbn zeta. destruct (Payment_find_one self payment_id) as [payment|e].
      * rewrite Hno. cbn. eexists _, _. split; [reflexivity|]. cbn. auto.
      * eexists _, _. split; [reflexivity|]. cbn. auto.
    + rewrite (webhook_address_helper_raises self request s n payment_id e Hid Hip Hhelper).
      eexists _, _. split; [reflexivity|]. auto.
Qed.

(** C1. A request that carries a payment id and whose event the remote
    lookup does not confirm (a [payment.succeeded] event needs the remote
    status [succeeded] and the paid flag, a [payment.canceled] event the
    remote status [canceled], no other event is ever confirmed) is answered
    403; the only call made is the lookup, so neither
    [handle_payment_succeeded] nor [handle_payment_canceled] runs, and the
    store is as before. *)
Theorem webhook_rejects_unconfirmed_event self request s n payment_id payment :
  reaches_lookup self request n payment_id ->
  Payment_find_one self payment_id = Return payment ->
  ~ remote_confirms (event n) payment ->
  webhook_handler self request s
  = (Return (Response_ 403), State (db s) (calls s ++ [FindOne payment_id])).
Proof.
  intros Hreach Hfind Hno.
  rewrite (webhook_handler_run self request s n payment_id Hreach), Hfind.
  destruct (remote_confirmsb (event n) payment) eqn:Hb; [|reflexivity].
  apply remote_confirms_spec in Hb. contradiction.
Qed.

(** C2, as the code has it. A [payment.succeeded] event whose lookup
    reports [succeeded] and paid, and a [payment.canceled] event whose lookup
    reports [canceled], make the handler call the lookup and then the
    corresponding operation for that payment id, once; the store is the one
    that operation leaves. The answer is 200 when the operation returns and
    400 when it raises. *)
Theorem webhook_accepts_confirmed_event self request s n payment_id payment :
  reaches_lookup self request n payment_id ->
  Payment_find_one self payment_id = Return payment ->
  (event n = PAYMENT_SUCCEEDED ->
   _normalize_status (status payment) = "succeeded" -> paid payment = true ->
   webhook_handler self request s
   = (Return (Response_
                match fst (_on_payment_succeeded self payment_id (db s)) with
                | Return _ => 200
                | Raise _ => 400
                end),
      State (snd (_on_payment_succeeded self payment_id (db s)))
        (calls s ++ [FindOne payment_id; HandlePaymentSucceeded payment_id])))
  /\ (event n = PAYMENT_CANCELED ->
      _normalize_status (status payment) = "canceled" ->
      webhook_handler self request s
      = (Return (Response_
                   match fst (_on_payment_canceled self payment_id (db s)) with
                   | Return _ => 200
                   | Raise _ => 400
                   end),
         State (snd (_on_payment_canceled self payment_id (db s)))
           (calls s ++ [FindOne payment_id; HandlePaymentCanceled payment_id]))).
Proof.
  intros Hreach Hfind.
  rewrite (webhook_handler_run self request s n payment_id Hreach), Hfind.
  split.
  - intros He Hst Hpaid.
    assert (Hb : remote_confirmsb (event n) payment = true).
    { apply remote_confirms_spec. left. auto. }
    rewrite Hb, He. cbn.
    unfold try_except, mbind, M_bind, handle_payment_succeeded, record, on_db,
      mbind, M_bind. cbn.
    destruct (_on_payment_succeeded self payment_id (db s)) as [[u|e] d]; cbn;
      rewrite <- app_assoc; reflexivity.
  - intros He Hst.
    assert (Hb : remote_confirmsb (event n) payment = true).
    { apply remote_confirms_spec. right. auto. }
    rewrite Hb, He. cbn.
    unfold try_except, mbind, M_bind, handle_payment_canceled, record, on_db,
      mbind, M_bind. cbn.
    destruct (_on_payment_canceled self payment_id (db s)) as [[u|e] d]; cbn;
      rewrite <- app_assoc; reflexivity.
Qed.

(** C3. When the lookup itself raises, [_is_event_confirmed_by_api] returns
    [False] and the request is answered 403 with no status update: the only
    call is the failed lookup and the store is as before. *)
Theorem webhook_fails_closed_on_lookup_error self request s n payment_id e :
  reaches_lookup self request n payment_id ->
  Payment_find_one self payment_id = Raise e ->
  _is_event_confirmed_by_api self payment_id (event n) s
  = (Return false, State (db s) (calls s ++ [FindOne payment_id]))
  /\ webhook_handler self request s
     = (Return (Response_ 403), State (db s) (calls s ++ [FindOne payment_id])).
Proof.
  intros Hreach Hfind. split.
  - rewrite is_event_confirmed_run, Hfind. reflexivity.
  - rewrite (webhook_handler_run self request s n payment_id Hreach), Hfind.
    reflexivity.
Qed.

(** C4. A request whose notification has no payment id, or an empty one, is
    answered 400 and changes nothing: no lookup, no status update, the same
    store. *)
Theorem webhook_rejects_missing_payment_id self request s n :
  notification request = Return n ->
  object_id n = None \/ object_id n = Some "" ->
  webhook_handler self request s = (Return (Response_ 400), s).
Proof.
  intros Hn Hid.
  unfold webhook_handler, try_except, mbind, M_bind, lift. rewrite Hn.
  destruct Hid as [-> | ->]; reflexivity.
Qed.

(** A status update that raises is answered 400 by the handler's last clause,
    after the one call. *)
Lemma webhook_status_update_raises self request s n payment_id payment e d :
  reaches_lookup self request n payment_id ->
  Payment_find_one self payment_id = Return payment ->
  event n = PAYMENT_SUCCEEDED ->
  _normalize_status (status payment) = "succeeded" -> paid payment = true ->
  _on_payment_succeeded self payment_id (db s) = (Raise e, d) ->
  webhook_handler self request s
  = (Return (Response_ 400),
     State d (calls s ++ [FindOne payment_id; HandlePaymentSucceeded payment_id])).
Proof.
  intros Hreach Hfind He Hst Hpaid Hrun.
  rewrite (webhook_handler_run self request s n payment_id Hreach), Hfind.
  assert (Hb : remote_confirmsb (event n) payment = true).
  { apply remote_confirms_spec. left. auto. }
  rewrite Hb, He. cbn.
  unfold try_except, mbind, M_bind, handle_payment_succeeded, record, on_db,
    mbind, M_bind. cbn. rewrite Hrun. cbn.
  rewrite <- app_assoc. reflexivity.
Qed.

End Webhook.

(** *** The handler on the sample gateway *)

Section WebhookSamples.

Import Yookassa Samples.

(** A forged [payment.succeeded] for a payment that is still pending, sent
    through a proxy chain from an address the SDK does not list. *)
Lemma webhook_rejects_unconfirmed_event_witness :
  webhook_handler shop
    (webhook PAYMENT_SUCCEEDED (Some "p-pending") (Some "6.6.6.6, 10.0.0.1")) idle
  = (Return (Response_ 403), State [] [FindOne "p-pending"]).
Proof.
  apply (webhook_rejects_unconfirmed_event shop
           (webhook PAYMENT_SUCCEEDED (Some "p-pending") (Some "6.6.6.6, 10.0.0.1"))
           idle (Build_WebhookNotification PAYMENT_SUCCEEDED (Some "p-pending"))
           "p-pending" (Build_PaymentResponse (WithValue "pending") false)).
  - split; [repeat split; discriminate | right; exists false; reflexivity].
  - reflexivity.
  - intros [(_ & H & _)|(H & _)]; vm_compute in H; discriminate H.
Defined.

(** A genuine [payment.succeeded] and a genuine [payment.canceled], with
    status updates that return. *)
Lemma webhook_accepts_confirmed_event_witness :
  webhook_handler shop (webhook PAYMENT_SUCCEEDED (Some "p-paid") (Some "185.71.76.1")) idle
  = (Return (Response_ 200),
     State [("p-paid", "succeeded")] [FindOne "p-paid"; HandlePaymentSucceeded "p-paid"])
  /\ webhook_handler shop (webhook PAYMENT_CANCELED (Some "p-canceled") None) idle
     = (Return (Response_ 200),
        State [("p-canceled", "canceled")]
          [FindOne "p-canceled"; HandlePaymentCanceled "p-canceled"]).
Proof.
  split.
  - apply (proj1 (webhook_accepts_confirmed_event shop
             (webhook PAYMENT_SUCCEEDED (Some "p-paid") (Some "185.71.76.1")) idle
             (Build_WebhookNotification PAYMENT_SUCCEEDED (Some "p-paid"))
             "p-paid" (Build_PaymentResponse (WithValue "succeeded") true)
             ltac:(split; [repeat split; discriminate | right; exists true; reflexivity])
             eq_refl));
      reflexivity.
  - apply (proj2 (webhook_accepts_confirmed_event shop
             (webhook PAYMENT_CANCELED (Some "p-canceled") None) idle
             (Build_WebhookNotification PAYMENT_CANCELED (Some "p-canceled"))
             "p-canceled" (Build_PaymentResponse (Plain "CANCELED") false)
             ltac:(split; [repeat split; discriminate | right; exists false; reflexivity])
             eq_refl));
      reflexivity.
Defined.

(** Against C2 as stated: the same genuine [payment.succeeded], whose lookup
    reports [succeeded] and paid, on a gateway whose status update raises: one
    call of the operation, and the answer is 400, not 200. *)
Lemma webhook_confirmed_event_counterexample :
  Payment_find_one failing_shop "p-paid"
  = Return (Build_PaymentResponse (WithValue "succeeded") true)
  /\ webhook_handler failing_shop
       (webhook PAYMENT_SUCCEEDED (Some "p-paid") (Some "185.71.76.1")) idle
     = (Return (Response_ 400),
        State [] [FindOne "p-paid"; HandlePaymentSucceeded "p-paid"]).
Proof. split; reflexivity. Qed.

(** A notification about a payment the provider does not know: the lookup
    raises. *)
Lemma webhook_fails_closed_on_lookup_error_witness :
  _is_event_confirmed_by_api shop "p-unknown" PAYMENT_SUCCEEDED idle
  = (Return false, State [] [FindOne "p-unknown"])
  /\ webhook_handler shop (webhook PAYMENT_SUCCEEDED (Some "p-unknown") None) idle
     = (Return (Response_ 403), State [] [FindOne "p-unknown"]).
Proof.
  apply (webhook_fails_closed_on_lookup_error shop
           (webhook PAYMENT_SUCCEEDED (Some "p-unknown") None) idle
           (Build_WebhookNotification PAYMENT_SUCCEEDED (Some "p-unknown"))
           "p-unknown" (Exception "NotFoundError")).
  - split; [repeat split; discriminate | right; exists false; reflexivity].
  - reflexivity.
Defined.

(** A notification without a payment id. *)
Lemma webhook_rejects_missing_payment_id_witness :
  webhook_handler shop (webhook PAYMENT_SUCCEEDED None None) idle
  = (Return (Response_ 400), idle).
Proof.
  apply (webhook_rejects_missing_payment_id shop
           (webhook PAYMENT_SUCCEEDED None None) idle
           (Build_WebhookNotification PAYMENT_SUCCEEDED None)).
  - reflexivity.
  - left. reflexivity.
Defined.

(** The forwarded address is not an address: the helper raises and the
    answer is 400, whatever the lookup would have said. *)
Example webhook_garbled_forwarded_header :
  webhook_handler shop (webhook PAYMENT_SUCCEEDED (Some "p-pending") (Some "not-an-ip")) idle
  = (Return (Response_ 400), idle).
Proof. reflexivity. Qed.

End WebhookSamples.

(** * Properties of the promocode generator *)

(** ** Division and ceiling *)

Section Ceiling.

Local Open Scope bool_scope.

Lemma ceil_div_bounds a b : 0 < b -> b * (ceil_div a b - 1) < a <= b * ceil_div a b.
Proof.
  intros Hb. unfold ceil_div.
  pose proof (Z.mul_div_le (- a) b Hb).
  pose proof (Z.mul_succ_div_gt (- a) b Hb). lia.
Qed.

Lemma ceil_div_unique a b c : 0 < b -> b * (c - 1) < a <= b * c -> ceil_div a b = c.
Proof.
  intros Hb [Hlo Hhi]. unfold ceil_div.
  assert ((- a) / b = - c); [|lia].
  symmetry. apply (Z.div_unique_pos (- a) b (- c) (b * c - a)); lia.
Qed.

(** A quotient below [2^n] has a logarithm below [n]. *)
Lemma quotient_log2_le a b n :
  0 < a -> 0 < b -> 0 <= n -> a < 2 ^ n * b -> quotient_log2 a b <= n - 1.
Proof.
  intros Ha Hb Hn Hab. unfold quotient_log2, scale.
  set (d := Z.log2 a - Z.log2 b).
  destruct (Z.leb_spec (b * 2 ^ Z.max 0 d) (a * 2 ^ Z.max 0 (- d))) as [Hle|Hgt].
  - destruct (Z_lt_le_dec d n) as [|Hd]; [lia|]. exfalso.
    rewrite (Z.max_r 0 d), (Z.max_l 0 (- d)) in Hle by lia.
    assert (2 ^ n <= 2 ^ d) by (apply Z.pow_le_mono_r; lia).
    nia.
  - assert (Z.log2 a < n + Z.log2 b + 1); [|lia].
    apply Z.log2_lt_pow2; [lia|].
    pose proof (Z.log2_spec b Hb) as [_ Hb2].
    rewrite <- Z.add_assoc, Z.pow_add_r by (pose proof (Z.log2_nonneg b); lia).
    replace (Z.log2 b + 1) with (Z.succ (Z.log2 b)) by lia.
    assert (0 < 2 ^ n) by (apply Z.pow_pos_nonneg; lia). nia.
Qed.

(** With a divisor below [2^27] and a quotient below [2^27], the binary64
    quotient keeps at least 26 bits after the point, more than the distance
    [1/b] of an inexact quotient from the integer below it: rounding never
    reaches that integer, and the ceiling of the rounded quotient is the
    exact one. *)
Lemma int_true_divide_ceil a b :
  0 < a -> 0 < b < 2 ^ 27 -> a < 2 ^ 27 * b ->
  exists x, int_true_divide a b = Return x /\ math_ceil x = ceil_div a b.
Proof.
  intros Ha Hb Hab.
  pose proof (quotient_log2_le a b 27 Ha (proj1 Hb) ltac:(lia) Hab) as Hk.
  unfold int_true_divide.
  set (k := quotient_log2 a b) in *.
  set (s := 52 - k).
  assert (Hs : 26 <= s) by (unfold s; lia).
  unfold scale. rewrite (Z.max_r 0 s), (Z.max_l 0 (- s)) by lia.
  rewrite Z.pow_0_r, Z.mul_1_r.
  set (S := 2 ^ s).
  assert (HS : 2 ^ 26 <= S) by (apply Z.pow_le_mono_r; lia).
  set (q := a * S / b). set (r := (a * S) mod b).
  assert (Hqr : a * S = b * q + r) by (apply Z.div_mod; lia).
  assert (Hr : 0 <= r < b) by (apply Z.mod_pos_bound; lia).
  set (c := ceil_div a b).
  pose proof (ceil_div_bounds a b (proj1 Hb)) as [Hclo Hchi]. fold c in Hclo, Hchi.
  set (m := if (b <? 2 * r) || ((b =? 2 * r) && Z.odd q) then q + 1 else q).
  assert (Hm : (c - 1) * S < m <= c * S).
  { assert (Hq1 : (c - 1) * S <= q) by nia.
    assert (Hq2 : q <= c * S) by nia.
    unfold m. split.
    - destruct (Z.eq_dec q ((c - 1) * S)) as [Heq|Hne].
      + assert (S <= r) by nia.
        assert (Hlt : (b <? 2 * r) = true) by (apply Z.ltb_lt; lia).
        rewrite Hlt. cbn. lia.
      + destruct ((b <? 2 * r) || ((b =? 2 * r) && Z.odd q)); lia.
    - destruct (Z.eq_dec q (c * S)) as [Heq|Hne].
      + assert (r = 0) by nia.
        assert (Hlt : (b <? 2 * r) = false) by (apply Z.ltb_ge; lia).
        assert (Heq' : (b =? 2 * r) = false) by (apply Z.eqb_neq; lia).
        rewrite Hlt, Heq'. cbn. lia.
      + destruct ((b <? 2 * r) || ((b =? 2 * r) && Z.odd q)); lia. }
  assert (Hov : (971 <? k - 52) || ((k - 52 =? 971) && (m =? 2 ^ 53)) = false).
  { assert (H1 : (971 <? k - 52) = false) by (apply Z.ltb_ge; lia).
    assert (H2 : (k - 52 =? 971) = false) by (apply Z.eqb_neq; lia).
    rewrite H1, H2. reflexivity. }
  rewrite Hov. eexists. split; [reflexivity|].
  unfold math_ceil. cbn [exponent mantissa].
  assert (Hneg : (0 <=? k - 52) = false) by (apply Z.leb_gt; lia).
  rewrite Hneg. replace (- (k - 52)) with s by (unfold s; lia). fold S.
  symmetry. change (- (- m / S)) with (ceil_div m S).
  assert (ceil_div m S = c); [|unfold c in *; lia].
  apply ceil_div_unique; lia.
Qed.

End Ceiling.

(** ** Remaining days *)

Section RemainingDays.

Import Promocodes.

Lemma MS_PER_DAY_value : MS_PER_DAY = 86400000.
Proof. reflexivity. Qed.

Lemma normalize_days_expired expiry now min_days :
  expiry <= now -> normalize_days expiry now min_days = Return 0.
Proof.
  intros H. unfold normalize_days.
  destruct (Z.leb_spec (expiry - now) 0); [reflexivity | lia].
Qed.

Lemma normalize_days_exact expiry now min_days :
  now < expiry < now + 2 ^ 27 * MS_PER_DAY ->
  normalize_days expiry now min_days =
  Return (if ceil_div (expiry - now) MS_PER_DAY <? min_days then 0
          else ceil_div (expiry - now) MS_PER_DAY).
Proof.
  intros H. unfold normalize_days.
  destruct (Z.leb_spec (expiry - now) 0); [lia|].
  destruct (int_true_divide_ceil (expiry - now) MS_PER_DAY) as (x & -> & Hx).
  - lia.
  - rewrite MS_PER_DAY_value. lia.
  - lia.
  - cbn. rewrite Hx.
    destruct (ceil_div (expiry - now) MS_PER_DAY <? min_days); reflexivity.
Qed.

(** Inside the horizon the ceiling is at least one day. *)
Lemma ceil_div_positive a : 0 < a -> 1 <= ceil_div a MS_PER_DAY.
Proof.
  intros Ha. pose proof (ceil_div_bounds a MS_PER_DAY) as H.
  rewrite MS_PER_DAY_value in *. lia.
Qed.

Lemma truthy_strip_nonempty x : x <> "" -> negb (Str.truthy x) = false.
Proof. destruct x; [congruence | reflexivity]. Qed.

(** A client that passes the two tests on its email reaches line 139. *)
Lemma examine_client_passed incl min_days unlimited now ib c :
  passes_email_tests incl c ->
  examine_client incl min_days unlimited now ib c =
  let email := Str.strip (client_email c) in
  let cid := Str.strip (client_id c) in
  if expiryTime c <=? 0 then
    match unlimited with
    | None => Return (Continue (Some (Build_skip ib email cid "unlimited_skipped")))
    | Some u => Return (Candidate (Build_entry ib email cid (Z.max u min_days)))
    end
  else
    days ← normalize_days (expiryTime c) now min_days;
    if days <=? 0
    then Return (Continue (Some (Build_skip ib email cid "expired_or_too_small")))
    else Return (Candidate (Build_entry ib email cid days)).
Proof.
  intros [Hne Hnum]. unfold examine_client.
  rewrite (truthy_strip_nonempty _ Hne).
  destruct Hnum as [-> | ->]; [reflexivity|].
  rewrite andb_false_r. reflexivity.
Qed.

(** C5, as the code has it. For an expiry after [now_ms] and less than
    [2^27] days away, [normalize_days] returns the ceiling of
    [(expiry - now) / 86,400,000] unless it is below the minimum, and then 0;
    an expiry that is not after [now_ms] gives 0. So [now + 10 days] gives 10
    and [now + 10 days + 1 minute] gives 11. A client with a positive expiry
    that passes the tests on its email is skipped with the reason
    [expired_or_too_small] exactly when that value is 0, and is a candidate
    with the ceiling as its days otherwise. *)
Theorem remaining_days_is_ceiling (now_ms min_days : Z) :
  (forall expiry,
     now_ms < expiry < now_ms + 2 ^ 27 * MS_PER_DAY ->
     normalize_days expiry now_ms min_days =
     Return (if ceil_div (expiry - now_ms) MS_PER_DAY <? min_days then 0
             else ceil_div (expiry - now_ms) MS_PER_DAY))
  /\ (forall expiry,
        expiry <= now_ms -> normalize_days expiry now_ms min_days = Return 0)
  /\ (min_days <= 10 ->
      normalize_days (now_ms + 10 * MS_PER_DAY) now_ms min_days = Return 10)
  /\ (min_days <= 11 ->
      normalize_days (now_ms + 10 * MS_PER_DAY + 60000) now_ms min_days = Return 11)
  /\ (forall incl unlimited ib c,
        passes_email_tests incl c ->
        0 < expiryTime c ->
        let email := Str.strip (client_email c) in
        let cid := Str.strip (client_id c) in
        let days := ceil_div (expiryTime c - now_ms) MS_PER_DAY in
        (expiryTime c <= now_ms
         \/ (now_ms < expiryTime c < now_ms + 2 ^ 27 * MS_PER_DAY /\ days < min_days) ->
         examine_client incl min_days unlimited now_ms ib c
         = Return (Continue (Some (Build_skip ib email cid "expired_or_too_small"))))
        /\ (now_ms < expiryTime c < now_ms + 2 ^ 27 * MS_PER_DAY /\ min_days <= days ->
            examine_client incl min_days unlimited now_ms ib c
            = Return (Candidate (Build_entry ib email cid days)))).
Proof.
  split; [intros; apply normalize_days_exact; assumption|].
  split; [intros; apply normalize_days_expired; assumption|].
  split.
  { intros Hmin. rewrite normalize_days_exact by (rewrite MS_PER_DAY_value; lia).
    replace (ceil_div (now_ms + 10 * MS_PER_DAY - now_ms) MS_PER_DAY) with 10.
    - destruct (Z.ltb_spec 10 min_days); [lia | reflexivity].
    - symmetry. apply ceil_div_unique; rewrite MS_PER_DAY_value; lia. }
  split.
  { intros Hmin. rewrite normalize_days_exact by (rewrite MS_PER_DAY_value; lia).
    replace (ceil_div (now_ms + 10 * MS_PER_DAY + 60000 - now_ms) MS_PER_DAY) with 11.
    - destruct (Z.ltb_spec 11 min_days); [lia | reflexivity].
    - symmetry. apply ceil_div_unique; rewrite MS_PER_DAY_value; lia. }
  intros incl unlimited ib c Hpass Hpos email cid days.
  rewrite (examine_client_passed _ _ _ _ _ _ Hpass). cbn zeta.
  destruct (Z.leb_spec (expiryTime c) 0) as [|_]; [lia|].
  split.
  - intros [Hexp | [Hin Hsmall]].
    + rewrite normalize_days_expired by assumption. reflexivity.
    + rewrite normalize_days_exact by assumption. fold days.
      destruct (Z.ltb_spec days min_days); [reflexivity | lia].
  - intros [Hin Hbig].
    rewrite normalize_days_exact by assumption. fold days.
    destruct (Z.ltb_spec days min_days); [lia|]. cbn.
    pose proof (ceil_div_positive (expiryTime c - now_ms) ltac:(lia)) as Hd.
    fold days in Hd.
    destruct (Z.leb_spec days 0); [lia | reflexivity].
Qed.

(** Three days and one millisecond left, with the default minimum. *)
Lemma remaining_days_is_ceiling_witness :
  normalize_days (1700000000000 + 3 * MS_PER_DAY + 1) 1700000000000 1 = Return 4.
Proof.
  apply (proj1 (remaining_days_is_ceiling 1700000000000 1)
           (1700000000000 + 3 * MS_PER_DAY + 1)).
  vm_compute. split; reflexivity.
Defined.

(** Against C5 as stated: ten days and one minute are 11 days, not 10; and
    [2^27] days and one millisecond are [2^27] days for the script, the
    binary64 quotient being [2^27] exactly, while the ceiling is [2^27 + 1]. *)
Lemma remaining_days_counterexample :
  normalize_days (1700000000000 + 10 * MS_PER_DAY + 60000) 1700000000000 1
    <> Return 10
  /\ normalize_days (2 ^ 27 * MS_PER_DAY + 1) 0 1
     <> Return (ceil_div (2 ^ 27 * MS_PER_DAY + 1 - 0) MS_PER_DAY).
Proof. split; vm_compute; discriminate. Qed.

Example normalize_days_ten_days_one_minute :
  normalize_days (1700000000000 + 10 * MS_PER_DAY + 60000) 1700000000000 1 = Return 11.
Proof. reflexivity. Qed.

Example normalize_days_beyond_horizon :
  normalize_days (2 ^ 27 * MS_PER_DAY + 1) 0 1 = Return (2 ^ 27)
  /\ ceil_div (2 ^ 27 * MS_PER_DAY + 1) MS_PER_DAY = 2 ^ 27 + 1.
Proof. split; reflexivity. Qed.

End RemainingDays.

(** ** The collection *)

Section Collection.

Import Promocodes.

Implicit Types (selected : list (string * entry)) (cands : list entry).

(** *** The dictionary *)

Lemma dict_get_In selected k v : dict_get selected k = Some v -> In (k, v) selected.
Proof.
  induction selected as [|[k' v'] d IH]; cbn; [discriminate|].
  destruct (String.eqb_spec k' k) as [->|Hne].
  - intros [= ->]. left. reflexivity.
  - intros H. right. apply IH, H.
Qed.

Lemma dict_get_None selected k :
  dict_get selected k = None -> ~ In k (List.map fst selected).
Proof.
  induction selected as [|[k' v'] d IH]; cbn; [tauto|].
  destruct (String.eqb_spec k' k) as [->|Hne]; [discriminate|].
  intros H [Heq|Hin]; [congruence | exact (IH H Hin)].
Qed.

Lemma dict_get_Some_key selected k v :
  dict_get selected k = Some v -> In k (List.map fst selected).
Proof.
  intros H. apply dict_get_In in H.
  apply in_map_iff. exists (k, v). split; [reflexivity | assumption].
Qed.

Lemma In_dict_get selected k v :
  List.NoDup (List.map fst selected) -> In (k, v) selected -> dict_get selected k = Some v.
Proof.
  induction selected as [|[k' v'] d IH]; cbn; [tauto|].
  intros Hnd [Heq|Hin].
  - injection Heq as -> ->. rewrite String.eqb_refl. reflexivity.
  - apply List.NoDup_cons_iff in Hnd as [Hk' Hnd].
    destruct (String.eqb_spec k' k) as [->|Hne].
    + exfalso. apply Hk'. apply in_map_iff. exists (k, v). auto.
    + apply IH; assumption.
Qed.

Lemma dict_set_keys selected k v :
  List.map fst (dict_set selected k v) =
  match dict_get selected k with
  | Some _ => List.map fst selected
  | None => List.map fst selected ++ [k]
  end.
Proof.
  induction selected as [|[k' v'] d IH]; cbn; [reflexivity|].
  destruct (String.eqb_spec k' k) as [->|Hne]; cbn; [reflexivity|].
  rewrite IH. destruct (dict_get d k); reflexivity.
Qed.

Lemma dict_get_set_same selected k v : dict_get (dict_set selected k v) k = Some v.
Proof.
  induction selected as [|[k' v'] d IH]; cbn.
  - rewrite String.eqb_refl. reflexivity.
  - destruct (String.eqb_spec k' k) as [->|Hne]; cbn.
    + rewrite String.eqb_refl. reflexivity.
    + destruct (String.eqb_spec k' k); [contradiction | exact IH].
Qed.

Lemma dict_get_set_other selected k v k0 :
  k0 <> k -> dict_get (dict_set selected k v) k0 = dict_get selected k0.
Proof.
  intros Hne. induction selected as [|[k' v'] d IH]; cbn.
  - destruct (String.eqb_spec k k0); [congruence | reflexivity].
  - destruct (String.eqb_spec k' k) as [->|Hne']; cbn.
    + destruct (String.eqb_spec k k0); [congruence | reflexivity].
    + rewrite IH. reflexivity.
Qed.

Lemma dict_set_NoDup selected k v :
  List.NoDup (List.map fst selected) -> List.NoDup (List.map fst (dict_set selected k v)).
Proof.
  intros Hnd. rewrite dict_set_keys.
  destruct (dict_get selected k) eqn:Hget; [assumption|].
  apply dict_get_None in Hget.
  apply List.NoDup_app; [assumption | repeat constructor; cbn; tauto |].
  intros x Hx [<-|[]]. contradiction.
Qed.

Lemma In_dict_set selected k v k0 v0 :
  List.NoDup (List.map fst selected) ->
  In (k0, v0) (dict_set selected k v) <->
  (k0 = k /\ v0 = v) \/ (k0 <> k /\ In (k0, v0) selected).
Proof.
  intros Hnd.
  assert (Hnd' := dict_set_NoDup selected k v Hnd).
  split.
  - intros Hin. apply (In_dict_get _ _ _ Hnd') in Hin.
    destruct (String.eqb_spec k0 k) as [->|Hne].
    + rewrite dict_get_set_same in Hin. injection Hin as <-. left. auto.
    + rewrite dict_get_set_other in Hin by assumption.
      right. split; [assumption | apply dict_get_In, Hin].
  - intros [[-> ->] | [Hne Hin]].
    + apply dict_get_In, dict_get_set_same.
    + apply dict_get_In. rewrite dict_get_set_other by assumption.
      apply In_dict_get; assumption.
Qed.

(** *** The invariant of the loops *)

Lemma selection_of_empty : selection_of [] [].
Proof.
  split; [constructor|]. split; [intros k v []|intros e []].
Qed.

Lemma select_selection selected cands row :
  selection_of selected cands -> selection_of (select selected row) (cands ++ [row]).
Proof.
  intros (Hnd & Hmax & Hall). unfold select.
  destruct (dict_get selected (entry_email row)) as [existing|] eqn:Hget.
  - assert (Hex := dict_get_In _ _ _ Hget).
    destruct (Hmax _ _ Hex) as (Hk & Hc & Hle).
    destruct (Z.ltb_spec (entry_days existing) (entry_days row)) as [Hlt|Hge].
    + split; [apply dict_set_NoDup, Hnd|]. split.
      * intros k v Hin. apply (In_dict_set _ _ _ _ _ Hnd) in Hin.
        destruct Hin as [[-> ->] | [Hne Hin]].
        -- split; [reflexivity|]. split; [apply in_app_iff; cbn; auto|].
           intros e He Hemail. apply in_app_iff in He as [He|[<-|[]]]; [|lia].
           specialize (Hle e He Hemail). lia.
        -- destruct (Hmax _ _ Hin) as (Hk' & Hc' & Hle').
           split; [assumption|]. split; [apply in_app_iff; auto|].
           intros e He Hemail. apply in_app_iff in He as [He|[<-|[]]]; [auto | congruence].
      * intros e He. rewrite dict_set_keys, Hget.
        apply in_app_iff in He as [He|[<-|[]]]; [auto|].
        apply (dict_get_Some_key _ _ _ Hget).
    + split; [assumption|]. split.
      * intros k v Hin. destruct (Hmax _ _ Hin) as (Hk' & Hc' & Hle').
        split; [assumption|]. split; [apply in_app_iff; auto|].
        intros e He Hemail. apply in_app_iff in He as [He|[<-|[]]]; [auto|].
        rewrite <- Hemail in Hin. rewrite (In_dict_get _ _ _ Hnd Hin) in Hget.
        injection Hget as ->. lia.
      * intros e He. apply in_app_iff in He as [He|[<-|[]]]; [auto|].
        apply (dict_get_Some_key _ _ _ Hget).
  - assert (Hfresh := dict_get_None _ _ Hget).
    split; [apply dict_set_NoDup, Hnd|]. split.
    + intros k v Hin. apply (In_dict_set _ _ _ _ _ Hnd) in Hin.
      destruct Hin as [[-> ->] | [Hne Hin]].
      * split; [reflexivity|]. split; [apply in_app_iff; cbn; auto|].
        intros e He Hemail. apply in_app_iff in He as [He|[<-|[]]]; [|lia].
        exfalso. apply Hfresh. rewrite <- Hemail. auto.
      * destruct (Hmax _ _ Hin) as (Hk' & Hc' & Hle').
        split; [assumption|]. split; [apply in_app_iff; auto|].
        intros e He Hemail. apply in_app_iff in He as [He|[<-|[]]]; [auto | congruence].
    + intros e He. rewrite dict_set_keys, Hget. apply in_app_iff.
      apply in_app_iff in He as [He|[<-|[]]]; cbn; auto.
Qed.

(** *** The loops *)

Lemma for_each_returns {A S : Type} (body : S -> A -> result S) (l : list A) :
  (forall s x, In x l -> returns (body s x)) -> forall s, returns (for_each body l s).
Proof.
  induction l as [|x l IH]; intros Hbody s; cbn.
  - exists s. reflexivity.
  - destruct (Hbody s x) as [s' ->]; [left; reflexivity|]. cbn.
    apply IH. intros s0 y Hy. apply Hbody. right. exact Hy.
Qed.

Lemma normalize_days_returns expiry now min_days :
  expiry - now < 2 ^ 27 * MS_PER_DAY -> returns (normalize_days expiry now min_days).
Proof.
  intros H. destruct (Z_le_gt_dec expiry now).
  - rewrite normalize_days_expired by assumption. eexists. reflexivity.
  - rewrite normalize_days_exact by lia. eexists. reflexivity.
Qed.

Lemma examine_client_returns incl min_days unlimited now ib c :
  expiryTime c - now < 2 ^ 27 * MS_PER_DAY ->
  returns (examine_client incl min_days unlimited now ib c).
Proof.
  intros H. unfold examine_client.
  destruct (negb _); [eexists; reflexivity|].
  destruct (_ && _); [eexists; reflexivity|].
  destruct (expiryTime c <=? 0).
  - destruct unlimited; eexists; reflexivity.
  - destruct (normalize_days_returns (expiryTime c) now min_days H) as [d ->]. cbn.
    destruct (d <=? 0); eexists; reflexivity.
Qed.

Lemma collect_client_returns incl min_days unlimited now ib st c :
  expiryTime c - now < 2 ^ 27 * MS_PER_DAY ->
  returns (collect_client incl min_days unlimited now ib st c).
Proof.
  intros H. unfold collect_client.
  destruct (examine_client_returns incl min_days unlimited now ib c H) as [v ->]. cbn.
  destruct v as [[r|]|row]; eexists; reflexivity.
Qed.

Lemma collect_clients_selection incl min_days unlimited now ib clients :
  forall st st' cands,
    selection_of (fst st) cands ->
    for_each (collect_client incl min_days unlimited now ib) clients st = Return st' ->
    exists new,
      client_candidates incl min_days unlimited now ib clients = Return new
      /\ selection_of (fst st') (cands ++ new).
Proof.
  induction clients as [|c clients IH]; intros st st' cands Hsel; cbn.
  - intros [= <-]. exists []. rewrite app_nil_r. auto.
  - destruct (collect_client incl min_days unlimited now ib st c) as [st1|e1] eqn:Hstep;
      cbn; [|discriminate].
    intros Hrun. unfold collect_client in Hstep.
    destruct (examine_client incl min_days unlimited now ib c) as [v|e]; cbn in Hstep;
      [|discriminate].
    cbn.
    destruct v as [[r|]|row]; injection Hstep as <-.
    + destruct (IH (_, _) _ cands Hsel Hrun) as (new & -> & Hnew). cbn. eauto.
    + destruct (IH _ _ cands Hsel Hrun) as (new & -> & Hnew). cbn. eauto.
    + destruct (IH (_, _) _ (cands ++ [row]) (select_selection _ _ row Hsel) Hrun)
        as (new & -> & Hnew). cbn.
      exists (row :: new). split; [reflexivity|].
      rewrite <- app_assoc in Hnew. exact Hnew.
Qed.

Lemma collect_inbounds_selection incl min_days unlimited now rows :
  forall st st' cands,
    selection_of (fst st) cands ->
    for_each (collect_inbound incl min_days unlimited now) rows st = Return st' ->
    exists new,
      candidates incl min_days unlimited now rows = Return new
      /\ selection_of (fst st') (cands ++ new).
Proof.
  induction rows as [|row rows IH]; intros st st' cands Hsel; cbn.
  - intros [= <-]. exists []. rewrite app_nil_r. auto.
  - destruct (collect_inbound incl min_days unlimited now st row) as [st1|e1] eqn:Hstep;
      cbn; [|discriminate].
    intros Hrun. unfold collect_inbound in Hstep.
    destruct (settings row) as [|clients]; cbn.
    + injection Hstep as <-.
      destruct (IH (_, _) _ cands Hsel Hrun) as (new & -> & Hnew). cbn. eauto.
    + destruct (collect_clients_selection _ _ _ _ _ _ _ _ _ Hsel Hstep)
        as (hd & -> & Hhd).
      destruct (IH _ _ _ Hhd Hrun) as (tl & -> & Htl). cbn.
      exists (hd ++ tl). split; [reflexivity|].
      rewrite <- app_assoc in Htl. exact Htl.
Qed.

(** *** The sort *)

Lemma sorted_insert_perm key x l : Permutation (sorted_insert key x l) (x :: l).
Proof.
  induction l as [|y l IH]; cbn; [reflexivity|].
  destruct (String.leb (key x) (key y)); [reflexivity|].
  rewrite IH. apply perm_swap.
Qed.

Lemma sorted_perm key l : Permutation (sorted key l) l.
Proof.
  induction l as [|x l IH]; cbn; [reflexivity|].
  rewrite sorted_insert_perm, IH. reflexivity.
Qed.

Lemma selection_emails selected cands :
  selection_of selected cands ->
  List.map entry_email (dict_values selected) = List.map fst selected.
Proof.
  intros (_ & Hmax & _). unfold dict_values.
  induction selected as [|[k v] d IH]; cbn; [reflexivity|].
  destruct (Hmax k v) as (-> & _); [left; reflexivity|].
  f_equal. apply IH. intros k0 v0 Hin. apply Hmax. right. exact Hin.
Qed.

Lemma In_dict_values selected v :
  In v (dict_values selected) <-> exists k, In (k, v) selected.
Proof.
  unfold dict_values. rewrite in_map_iff. split.
  - intros ([k v'] & <- & Hin). exists k. exact Hin.
  - intros [k Hin]. exists (k, v). auto.
Qed.

(** C6. The collection returns whenever every expiry lies within the horizon
    of [normalize_days]; and whenever it returns, its rows have pairwise
    distinct emails, each row is a candidate of the run that no candidate
    with the same email exceeds in days, and every candidate's email has its
    row. At a single step, the row on file for an email is replaced by a
    later candidate only if the candidate has strictly more days. *)
Theorem collection_keeps_largest_per_email
    (inbounds : list inbound) (incl : bool) (only : option Z)
    (min_days : Z) (unlimited : option Z) (now : Z) :
  (expiries_below_horizon now inbounds ->
   returns (collect_legacy_clients inbounds incl only min_days unlimited now))
  /\ (forall result skipped,
        collect_legacy_clients inbounds incl only min_days unlimited now
        = Return (result, skipped) ->
        exists cands,
          candidates incl min_days unlimited now (fetch_inbounds only inbounds)
          = Return cands
          /\ List.NoDup (List.map entry_email result)
          /\ (forall row, In row result ->
                In row cands
                /\ forall e, In e cands -> entry_email e = entry_email row ->
                             entry_days e <= entry_days row)
          /\ (forall e, In e cands ->
                exists row, In row result /\ entry_email row = entry_email e))
  /\ (forall selected row existing,
        dict_get selected (entry_email row) = Some existing ->
        dict_get (select selected row) (entry_email row)
        = Some (if entry_days existing <? entry_days row then row else existing)).
Proof.
  split; [|split].
  - intros Hhor. unfold collect_legacy_clients.
    destruct (for_each_returns (collect_inbound incl min_days unlimited now)
                (fetch_inbounds only inbounds)) with (s := ([] : list (string * entry), [] : list skip))
      as [[selected skipped] ->].
    + intros s row Hrow. unfold collect_inbound.
      destruct (settings row) as [|clients] eqn:Hset; [eexists; reflexivity|].
      apply for_each_returns. intros s0 c Hc. apply collect_client_returns.
      apply (Hhor row clients c); [|assumption|assumption].
      unfold fetch_inbounds in Hrow. destruct only; [|assumption].
      apply filter_In in Hrow. tauto.
    + cbn. eexists. reflexivity.
  - intros result skipped. unfold collect_legacy_clients.
    destruct (for_each _ (fetch_inbounds only inbounds) _) as [[selected sk]|e] eqn:Hrun;
      cbn; [|discriminate].
    intros [= <- <-].
    destruct (collect_inbounds_selection _ _ _ _ _ ([], []) _ [] selection_of_empty Hrun)
      as (cands & Hcands & Hsel).
    cbn in Hsel. exists cands. split; [assumption|].
    set (key := fun row => Str.lower (entry_email row)).
    assert (Hperm := sorted_perm key (dict_values selected)).
    pose proof Hsel as (Hnd & Hmax & Hall).
    split; [|split].
    + apply (Permutation_NoDup (l := List.map entry_email (dict_values selected))).
      * apply Permutation_map. symmetry. exact Hperm.
      * rewrite (selection_emails selected cands Hsel).
        exact Hnd.
    + intros row Hrow.
      apply (Permutation_in _ Hperm) in Hrow.
      apply In_dict_values in Hrow as [k Hin].
      destruct (Hmax k row Hin) as (Hk & Hc & Hle). subst k. auto.
    + intros e0 He.
      specialize (Hall e0 He). apply in_map_iff in Hall as ([k v] & Hk & Hin).
      cbn in Hk. subst k.
      exists v. split.
      * apply (Permutation_in _ (Permutation_sym Hperm)).
        apply In_dict_values. eauto.
      * apply (Hmax _ _ Hin).
  - intros selected row existing Hget. unfold select. rewrite Hget.
    destruct (entry_days existing <? entry_days row).
    + apply dict_get_set_same.
    + exact Hget.
Qed.

(** C9, as the code has it. A client whose expiry is zero and that passes
    the tests on its email: without the override it is skipped with the
    reason [unlimited_skipped]; with an override it is a candidate whose days
    are the larger of the override and the minimum, so the override itself
    whenever that is at least the minimum. *)
Theorem unlimited_client_days
    (incl : bool) (min_days : Z) (unlimited : option Z) (now ib : Z)
    (st : list (string * entry) * list skip) (c : client) :
  passes_email_tests incl c ->
  expiryTime c = 0 ->
  let email := Str.strip (client_email c) in
  let cid := Str.strip (client_id c) in
  (unlimited = None ->
   collect_client incl min_days unlimited now ib st c
   = Return (fst st, snd st ++ [Build_skip ib email cid "unlimited_skipped"]))
  /\ (forall override, unlimited = Some override ->
        collect_client incl min_days unlimited now ib st c
        = Return (select (fst st) (Build_entry ib email cid (Z.max override min_days)),
                  snd st)
        /\ (min_days <= override ->
            collect_client incl min_days unlimited now ib st c
            = Return (select (fst st) (Build_entry ib email cid override), snd st))).
Proof.
  intros Hpass Hzero email cid. unfold collect_client.
  rewrite (examine_client_passed _ _ _ _ _ _ Hpass), Hzero. cbn.
  split.
  - intros ->. reflexivity.
  - intros override ->. cbn. split; [reflexivity|].
    intros Hle. rewrite Z.max_l by lia. reflexivity.
Qed.

End Collection.

(** *** The collection on the sample store *)

Section CollectionSamples.

Import Promocodes Samples.

Example collect_sample :
  collect_legacy_clients legacy_inbounds false None 1 None clock
  = Return
      ([Build_entry 1 "user1@x" "c3" 12],
       [Build_skip 1 "Alpha" "c4" "unlimited_skipped";
        Build_skip 1 "" "c5" "empty_email";
        Build_skip 1 "old" "c6" "expired_or_too_small";
        Build_skip 2 "" "" "broken_settings_json"]).
Proof. reflexivity. Qed.

(** The two [user1@x] clients, with 5 and 12 days: one row, with 12. *)
Lemma collection_keeps_largest_per_email_witness :
  exists cands,
    candidates false 1 None clock legacy_inbounds = Return cands
    /\ List.NoDup (List.map entry_email [Build_entry 1 "user1@x" "c3" 12])
    /\ (forall row, In row [Build_entry 1 "user1@x" "c3" 12] ->
          In row cands
          /\ forall e, In e cands -> entry_email e = entry_email row ->
                       entry_days e <= entry_days row)
    /\ (forall e, In e cands ->
          exists row, In row [Build_entry 1 "user1@x" "c3" 12]
                      /\ entry_email row = entry_email e).
Proof.
  apply (proj1 (proj2 (collection_keeps_largest_per_email
                         legacy_inbounds false None 1 None clock))
           [Build_entry 1 "user1@x" "c3" 12]
           [Build_skip 1 "Alpha" "c4" "unlimited_skipped";
            Build_skip 1 "" "c5" "empty_email";
            Build_skip 1 "old" "c6" "expired_or_too_small";
            Build_skip 2 "" "" "broken_settings_json"]).
  reflexivity.
Defined.

(** The numeric email is left out without a skip record. *)
Example collect_two_clients :
  collect_legacy_clients two_clients false None 1 None clock
  = Return ([Build_entry 1 "user1@x" "u1" 5], []).
Proof. reflexivity. Qed.

Example candidates_sample :
  candidates false 1 None clock legacy_inbounds
  = Return [Build_entry 1 "user1@x" "c1" 5; Build_entry 1 "user1@x" "c3" 12].
Proof. reflexivity. Qed.

(** An unlimited client with an override of 30 days and the default
    minimum. *)
Lemma unlimited_client_days_witness :
  collect_client false 1 (Some 30) clock 7 ([], []) (Build_client "Alpha" "c9" 0)
  = Return (select [] (Build_entry 7 "Alpha" "c9" 30), []).
Proof.
  apply (proj2 (unlimited_client_days false 1 (Some 30) clock 7 ([], [])
                  (Build_client "Alpha" "c9" 0)
                  ltac:(split; [discriminate | left; reflexivity]) eq_refl)
           30 eq_refl).
  lia.
Defined.

(** Against C9 as stated: with the override 0 and the default minimum 1 the
    row has 1 day, not the override; and without an override a client with a
    blank email is skipped for that reason, and one with a numeric email is
    not recorded at all. *)
Lemma unlimited_client_counterexample :
  (exists row,
     collect_legacy_clients (unlimited_inbounds "Alpha") false None 1 (Some 0) clock
     = Return ([row], [])
     /\ entry_days row <> 0)
  /\ collect_legacy_clients (unlimited_inbounds " ") false None 1 None clock
     = Return ([], [Build_skip 7 "" "c9" "empty_email"])
  /\ collect_legacy_clients (unlimited_inbounds "12345") false None 1 None clock
     = Return ([], []).
Proof.
  split; [|split; reflexivity].
  exists (Build_entry 7 "Alpha" "c9" 1). split; [reflexivity | discriminate].
Qed.

End CollectionSamples.

(** ** Code generation *)

Section Codes.

Import Promocodes.

Local Open Scope nat_scope.

Implicit Types (entropy : nat -> nat) (existing : gset string).

(** *** Strings *)

Lemma length_append (a b : string) :
  String.length (String.append a b) = String.length a + String.length b.
Proof. induction a as [|c a IH]; simpl; [reflexivity | f_equal; exact IH]. Qed.

Lemma prefix_append (a b : string) : String.prefix a (String.append a b) = true.
Proof.
  induction a as [|c a IH]; simpl.
  - destruct b; reflexivity.
  - destruct (ascii_dec c c); [exact IH | contradiction].
Qed.

Lemma length_random_suffix entropy pos n :
  String.length (random_suffix entropy pos n) = n.
Proof.
  revert pos. induction n as [|n IH]; intros pos; simpl; [reflexivity|].
  f_equal. apply IH.
Qed.


Lemma random_suffix_ext entropy1 entropy2 n :
  forall pos1 pos2,
    (forall i, i < n -> entropy1 (pos1 + i) = entropy2 (pos2 + i)) ->
    random_suffix entropy1 pos1 n = random_suffix entropy2 pos2 n.
Proof.
  induction n as [|n IH]; intros pos1 pos2 Hext; cbn; [reflexivity|].
  f_equal.
  - f_equal. specialize (Hext 0 ltac:(lia)). rewrite !Nat.add_0_r in Hext. exact Hext.
  - apply IH. intros i Hi. specialize (Hext (S i) ltac:(lia)).
    rewrite !Nat.add_succ_r in Hext. exact Hext.
Qed.

Lemma secrets_choice_index (c : ascii) :
  in_charset c = true -> secrets_choice CHARSET (index_in c CHARSET) = c.
Proof.
  intros H. apply existsb_exists in H as (x & Hin & Heq).
  apply Ascii.eqb_eq in Heq. subst x.
  cbv [CHARSET list_ascii_of_string] in Hin. cbn [In] in Hin.
  repeat (destruct Hin as [<-|Hin]; [reflexivity|]). contradiction.
Qed.

(** Draws that spell a given suffix exist. *)
Lemma random_suffix_spelling (suffix : string) :
  Str.forallb in_charset suffix = true ->
  forall pos,
    random_suffix (draws_spelling pos suffix) pos (String.length suffix) = suffix.
Proof.
  induction suffix as [|c suffix IH]; intros Hok pos; [reflexivity|].
  change (in_charset c && Str.forallb in_charset suffix = true) in Hok.
  apply andb_true_iff in Hok as [Hc Hok].
  change (String (secrets_choice CHARSET (draws_spelling pos (String c suffix) pos))
            (random_suffix (draws_spelling pos (String c suffix)) (S pos)
               (String.length suffix))
          = String c suffix).
  f_equal.
  - unfold draws_spelling. rewrite Nat.sub_diag. apply secrets_choice_index, Hc.
  - transitivity (random_suffix (draws_spelling (S pos) suffix) (S pos)
                    (String.length suffix)); [|apply IH, Hok].
    apply random_suffix_ext.
    intros i Hi. unfold draws_spelling.
    replace (S pos + i - pos) with (S i) by lia.
    replace (S pos + i - S pos) with i by lia. reflexivity.
Qed.

(** *** The loop of [generate_code] *)

Lemma generate_code_loop_sound entropy existing prefix n fuel :
  forall pos code existing' pos',
    generate_code_loop fuel entropy pos existing prefix n = Some (code, existing', pos') ->
    (code ∉ existing)
    /\ existing' = {[code]} ∪ existing
    /\ exists k, k < fuel
         /\ code = String.append prefix (random_suffix entropy (pos + k * n) n)
         /\ pos' = pos + S k * n.
Proof.
  induction fuel as [|fuel IH]; intros pos code existing' pos'; cbn; [discriminate|].
  destruct (decide (String.append prefix (random_suffix entropy pos n) ∈ existing))
    as [Hin|Hout].
  - intros Hrun. destruct (IH _ _ _ _ Hrun) as (Hfree & Hset & k & Hk & Hcode & Hpos).
    split; [assumption|]. split; [assumption|].
    exists (S k). split; [lia|]. split.
    + rewrite Hcode. do 2 f_equal. lia.
    + lia.
  - intros [= <- <- <-]. split; [assumption|]. split; [reflexivity|].
    exists 0. split; [lia|]. split; [|lia].
    do 2 f_equal. lia.
Qed.

Lemma generate_code_loop_progress entropy existing prefix n k :
  forall pos,
    String.append prefix (random_suffix entropy (pos + k * n) n) ∉ existing ->
    exists code pos',
      generate_code_loop (S k) entropy pos existing prefix n
      = Some (code, {[code]} ∪ existing, pos').
Proof.
  induction k as [|k IH]; intros pos Hfree.
  - cbn in *. rewrite Nat.add_0_r in Hfree.
    destruct (decide _) as [Hin|_]; [contradiction | eauto].
  - cbn [generate_code_loop].
    destruct (decide (String.append prefix (random_suffix entropy pos n) ∈ existing))
      as [_|_]; [|eauto].
    apply IH. replace (pos + n + k * n) with (pos + S k * n) by lia. exact Hfree.
Qed.

Lemma generate_code_sound fuel entropy pos existing prefix total code existing' pos' :
  generate_code fuel entropy pos existing prefix total = Some (code, existing', pos') ->
  (code ∉ existing)
  /\ existing' = {[code]} ∪ existing
  /\ (exists k, k < fuel /\ code = attempt entropy pos prefix total k)
  /\ well_formed_code prefix total code.
Proof.
  unfold generate_code. intros Hrun.
  apply generate_code_loop_sound in Hrun as (Hfree & Hset & k & Hk & Hcode & _).
  split; [assumption|]. split; [assumption|]. split; [exists k; auto|].
  rewrite Hcode. split.
  - apply prefix_append.
  - rewrite length_append, length_random_suffix. reflexivity.
Qed.

Lemma generate_code_progress entropy pos existing prefix total k :
  attempt entropy pos prefix total k ∉ existing ->
  exists code pos',
    generate_code (S k) entropy pos existing prefix total
    = Some (code, {[code]} ∪ existing, pos').
Proof. intros Hfree. apply generate_code_loop_progress, Hfree. Qed.

(** *** The loop of [main] over the prepared rows *)

Lemma assign_codes_spec fuel entropy prefix total prepared :
  forall pos existing rows existing' pos',
    assign_codes fuel entropy pos existing prefix total prepared
    = Some (rows, existing', pos') ->
    List.map fst rows = prepared
    /\ List.NoDup (List.map snd rows)
    /\ (forall code, In code (List.map snd rows) ->
          (code ∉ existing) /\ well_formed_code prefix total code)
    /\ (forall x, x ∈ existing' <-> x ∈ existing \/ In x (List.map snd rows)).
Proof.
  induction prepared as [|row prepared IH]; intros pos existing rows existing' pos'; cbn.
  - intros [= <- <- <-]. cbn. split; [reflexivity|]. split; [constructor|].
    split; [tauto|]. tauto.
  - destruct (generate_code fuel entropy pos existing prefix total)
      as [[[code existing1] pos1]|] eqn:Hcode; [|discriminate].
    destruct (assign_codes fuel entropy pos1 existing1 prefix total prepared)
      as [[[rows1 existing2] pos2]|] eqn:Hrest; [|discriminate].
    intros [= <- <- <-].
    apply generate_code_sound in Hcode as (Hfree & -> & _ & Hshape).
    destruct (IH _ _ _ _ _ Hrest) as (Hfst & Hnd & Hcodes & Hset).
    cbn. split; [f_equal; exact Hfst|]. split; [|split].
    + apply List.NoDup_cons_iff. split; [|exact Hnd].
      intros Hin. apply Hcodes in Hin as [Hin _].
      apply Hin, elem_of_union. left. apply elem_of_singleton. reflexivity.
    + intros c [<-|Hin]; [auto|].
      destruct (Hcodes c Hin) as [Hc Hwf]. split; [|exact Hwf].
      intros Hx. apply Hc, elem_of_union. right. exact Hx.
    + intros x. rewrite Hset, elem_of_union, elem_of_singleton.
      intuition (subst; auto).
Qed.


(** C10, as the code has it. When round [k] of the draws gives a code that
    is not in the set, [generate_code] returns within [k + 1] rounds; what it
    returns is the code of one of its rounds, outside the set it was given
    and added to it; when every round gives a code of the set it never
    returns; and when some suffix over [CHARSET] of the right length gives a
    code outside the set, there are draws under which it returns. *)
Theorem generate_code_returns_on_free_draw entropy pos existing prefix total :
  (forall k,
     attempt entropy pos prefix total k ∉ existing ->
     exists code pos',
       generate_code (S k) entropy pos existing prefix total
       = Some (code, {[code]} ∪ existing, pos')
       /\ (code ∉ existing))
  /\ (forall fuel code existing' pos',
        generate_code fuel entropy pos existing prefix total
        = Some (code, existing', pos') ->
        (code ∉ existing) /\ existing' = {[code]} ∪ existing
        /\ exists k, k < fuel /\ code = attempt entropy pos prefix total k)
  /\ ((forall k, attempt entropy pos prefix total k ∈ existing) ->
      forall fuel, generate_code fuel entropy pos existing prefix total = None)
  /\ ((exists suffix,
         possible_suffix prefix total suffix
         /\ (String.append (Str.upper prefix) suffix ∉ existing)) ->
      exists entropy' code pos',
        generate_code 1 entropy' pos existing prefix total
        = Some (code, {[code]} ∪ existing, pos')).
Proof.
  split; [|split; [|split]].
  - intros k Hfree.
    destruct (generate_code_progress _ _ _ _ _ _ Hfree) as (code & pos' & Hrun).
    exists code, pos'. split; [exact Hrun|].
    apply generate_code_sound in Hrun. tauto.
  - intros fuel code existing' pos' Hrun.
    apply generate_code_sound in Hrun as (Hfree & Hset & Hk & _). auto.
  - intros Htaken fuel.
    destruct (generate_code fuel entropy pos existing prefix total)
      as [[[code existing'] pos']|] eqn:Hrun; [exfalso | reflexivity].
    apply generate_code_sound in Hrun as (Hfree & _ & (k & _ & ->) & _).
    exact (Hfree (Htaken k)).
  - intros (suffix & [Hlen Hok] & Hfree).
    exists (draws_spelling pos suffix).
    apply (generate_code_progress (draws_spelling pos suffix) pos existing prefix total 0).
    unfold attempt. rewrite Nat.add_0_r, <- Hlen, random_suffix_spelling; assumption.
Qed.

End Codes.

(** *** Code generation on the samples *)

Section CodeSamples.

Import Promocodes Samples.




(** Draws that count up: the first round gives the taken [A], the second
    the free [B]. *)
Lemma generate_code_returns_on_free_draw_witness :
  exists code pos',
    generate_code 2 counting_draws 0 ({[ "A" ]} : gset string) "" 1
    = Some (code, {[code]} ∪ {[ "A" ]}, pos')
    /\ (code ∉ ({[ "A" ]} : gset string)).
Proof.
  apply (proj1 (generate_code_returns_on_free_draw counting_draws 0
                  ({[ "A" ]} : gset string) "" 1) 1%nat).
  intros H%elem_of_singleton. vm_compute in H. discriminate H.
Defined.

Example generate_code_second_round :
  generate_code 2 counting_draws 0 ({[ "A" ]} : gset string) "" 1
  = Some ("B", {[ "B" ]} ∪ {[ "A" ]}, 2%nat).
Proof. vm_compute. reflexivity. Qed.

(** Against C10 as stated: the set [{A}] leaves 35 one-character codes free,
    yet under draws that always pick the first character of [CHARSET] every
    round tries [A] again and [generate_code] never returns. *)
Lemma generate_code_counterexample :
  (exists suffix,
     possible_suffix "" 1 suffix
     /\ String.append (Str.upper "") suffix ∉ ({[ "A" ]} : gset string))
  /\ forall fuel,
       generate_code fuel constant_draws 0 ({[ "A" ]} : gset string) "" 1 = None.
Proof.
  split.
  - exists "B". split; [split; reflexivity|].
    intros H%elem_of_singleton. discriminate H.
  - intros fuel.
    destruct (generate_code fuel constant_draws 0 {[ "A" ]} "" 1)
      as [[[code existing'] pos']|] eqn:Hrun; [exfalso | reflexivity].
    apply generate_code_sound in Hrun as (Hfree & _ & (k & _ & ->) & _).
    apply Hfree, elem_of_singleton. reflexivity.
Qed.

End CodeSamples.

(** ** Enough free draws end the loop *)

Section CodesProgress.

Import Promocodes.

Local Open Scope nat_scope.

Implicit Types (entropy : nat -> nat) (existing : gset string).








End CodesProgress.

(** ** The run *)

Section Run.

Import Promocodes.









End Run.

(** *** The run on the sample world *)

Section RunSamples.

Import Promocodes Samples.

Example run_sample :
  option_map (fun r => (fst r, bot_db (snd r), output_csv (snd r), executed_inserts (snd r)))
    (main 2 default_args sample_environment sample_world)
  = Some (Exit 0,
          Some [Build_promocode_row "MIGAHOV29GN" 30 1 (Some 42) "2023-01-01 00:00:00";
                Build_promocode_row "MIGU18FMT07" 12 0 None "2023-11-14 22:13:20"],
          Some [fieldnames;
                [Text "user1@x"; Int 1; Text "c3"; Int 12; Text "MIGU18FMT07";
                 Text "prepared"];
                [Text "Alpha"; Int 1; Text "c4"; Text ""; Text "";
                 Text "skipped:unlimited_skipped"];
                [Text ""; Int 1; Text "c5"; Text ""; Text ""; Text "skipped:empty_email"];
                [Text "old"; Int 1; Text "c6"; Text ""; Text "";
                 Text "skipped:expired_or_too_small"];
                [Text ""; Int 2; Text ""; Text ""; Text "";
                 Text "skipped:broken_settings_json"]],
          [("MIGU18FMT07", 12)]).
Proof. vm_compute. reflexivity. Qed.




End RunSamples.

(** * Further properties of the webhook handler *)

Section WebhookCases.

Import Yookassa Situations.

Context {DB : Type}.
Implicit Types (self : Gateway DB) (request : Request) (s : state DB).

Lemma remote_confirmsb_event event payment :
  remote_confirmsb event payment = true ->
  (event = PAYMENT_SUCCEEDED
   /\ _normalize_status (status payment) = "succeeded" /\ paid payment = true)
  \/ (event = PAYMENT_CANCELED /\ event <> PAYMENT_SUCCEEDED
      /\ _normalize_status (status payment) = "canceled").
Proof.
  unfold remote_confirmsb.
  destruct (String.eqb_spec event PAYMENT_SUCCEEDED) as [->|Hs].
  - intros [H1 H2]%andb_true_iff. apply String.eqb_eq in H1. left. auto.
  - destruct (String.eqb_spec event PAYMENT_CANCELED) as [->|Hc]; [|discriminate].
    intros H%String.eqb_eq. right. auto.
Qed.

Lemma webhook_rejects_missing_payment_id_aux self request s n :
  notification request = Return n ->
  object_id n = None \/ object_id n = Some "" ->
  webhook_handler self request s = (Return (Response_ 400), s).
Proof.
  intros Hn Hid.
  unfold webhook_handler, try_except, mbind, M_bind, lift. rewrite Hn.
  destruct Hid as [-> | ->]; reflexivity.
Qed.

(** The six ways a request can go. *)
Lemma webhook_handler_cases self request s :
  (exists e,
      notification request = Raise e
      /\ webhook_handler self request s = (Return (Response_ 400), s))
  \/ (exists n,
        notification request = Return n
        /\ (object_id n = None \/ object_id n = Some "")
        /\ webhook_handler self request s = (Return (Response_ 400), s))
  \/ (exists n payment_id e,
        carries_payment_id request n payment_id
        /\ fst (fst (_extract_source_ip request)) <> ""
        /\ is_ip_trusted self (fst (fst (_extract_source_ip request))) = Raise e
        /\ webhook_handler self request s = (Return (Response_ 400), s))
  \/ (exists n payment_id,
        reaches_lookup self request n payment_id
        /\ match Payment_find_one self payment_id with
           | Return payment => remote_confirmsb (event n) payment = false
           | Raise _ => True
           end
        /\ webhook_handler self request s
           = (Return (Response_ 403), State (db s) (calls s ++ [FindOne payment_id])))
  \/ (exists n payment_id payment,
        reaches_lookup self request n payment_id
        /\ Payment_find_one self payment_id = Return payment
        /\ remote_confirmsb (event n) payment = true
        /\ event n = PAYMENT_SUCCEEDED
        /\ webhook_handler self request s
           = (Return (Response_
                        (answer_after (fst (_on_payment_succeeded self payment_id (db s))))),
              State (snd (_on_payment_succeeded self payment_id (db s)))
                (calls s ++ [FindOne payment_id; HandlePaymentSucceeded payment_id])))
  \/ (exists n payment_id payment,
        reaches_lookup self request n payment_id
        /\ Payment_find_one self payment_id = Return payment
        /\ remote_confirmsb (event n) payment = true
        /\ event n = PAYMENT_CANCELED
        /\ webhook_handler self request s
           = (Return (Response_
                        (answer_after (fst (_on_payment_canceled self payment_id (db s))))),
              State (snd (_on_payment_canceled self payment_id (db s)))
                (calls s ++ [FindOne payment_id; HandlePaymentCanceled payment_id]))).
Proof.
  destruct (notification request) as [n|e] eqn:Hn.
  2: { left. exists e. split; [reflexivity|]. apply (webhook_unparsable_body _ _ _ e Hn). }
  right.
  destruct (object_id n) as [payment_id|] eqn:Hid.
  2: { left. exists n. split; [reflexivity|]. split; [auto|].
       apply (webhook_rejects_missing_payment_id_aux self request s n Hn). left. exact Hid. }
  destruct (String.eqb_spec payment_id "") as [->|Hne].
  { left. exists n. split; [reflexivity|]. split; [auto|].
    apply (webhook_rejects_missing_payment_id_aux self request s n Hn). right. exact Hid. }
  right.
  assert (Hcarries : carries_payment_id request n payment_id) by (repeat split; assumption).
  assert (Hreach_or :
    reaches_lookup self request n payment_id
    \/ exists e, fst (fst (_extract_source_ip request)) <> ""
                 /\ is_ip_trusted self (fst (fst (_extract_source_ip request))) = Raise e).
  { destruct (String.eqb_spec (fst (fst (_extract_source_ip request))) "") as [Hempty|Hip].
    - left. split; [assumption | left; assumption].
    - destruct (is_ip_trusted self (fst (fst (_extract_source_ip request)))) as [b|e] eqn:Hh.
      + left. split; [assumption|]. right. exists b. exact Hh.
      + right. exists e. auto. }
  destruct Hreach_or as [Hreach | (e & Hip & Hraise)].
  2: { left. exists n, payment_id, e. split; [assumption|]. split; [assumption|].
       split; [assumption|].
       apply (webhook_address_helper_raises self request s n payment_id e Hcarries Hip Hraise). }
  right.
  rewrite (webhook_handler_run self request s n payment_id Hreach). cbn zeta.
  destruct (Payment_find_one self payment_id) as [payment|e] eqn:Hfind.
  2: { left. exists n, payment_id. rewrite Hfind. auto. }
  destruct (remote_confirmsb (event n) payment) eqn:Hb; cbn [negb].
  2: { left. exists n, payment_id. rewrite Hfind. auto. }
  right.
  destruct (remote_confirmsb_event _ _ Hb) as [(He & _) | (He & Hnot & _)].
  - left. exists n, payment_id, payment.
    split; [assumption|]. split; [assumption|]. split; [assumption|]. split; [assumption|].
    rewrite He, String.eqb_refl.
    unfold try_except, mbind, M_bind, handle_payment_succeeded, record, on_db,
      mbind, M_bind. cbn.
    destruct (_on_payment_succeeded self payment_id (db s)) as [[u|ex] d]; cbn;
      rewrite <- app_assoc; reflexivity.
  - right. exists n, payment_id, payment.
    split; [assumption|]. split; [assumption|]. split; [assumption|]. split; [assumption|].
    apply String.eqb_neq in Hnot. rewrite Hnot, He, String.eqb_refl.
    unfold try_except, mbind, M_bind, handle_payment_canceled, record, on_db,
      mbind, M_bind. cbn.
    destruct (_on_payment_canceled self payment_id (db s)) as [[u|ex] d]; cbn;
      rewrite <- app_assoc; reflexivity.
Qed.

End WebhookCases.

Section WebhookMore.

Import Yookassa Situations.

Context {DB : Type}.
Implicit Types (self : Gateway DB) (request : Request) (s : state DB).

(** X1. Whenever the handler answers, the status of the answer is 200, 400
    or 403. *)
Theorem webhook_answers_200_400_403 self request s code s' :
  webhook_handler self request s = (Return (Response_ code), s') ->
  code = 200 \/ code = 400 \/ code = 403.
Proof.
  intros Hrun.
  destruct (webhook_handler_cases self request s)
    as [(e & _ & H) | [(n & _ & _ & H) | [(n & p & e & _ & _ & _ & H)
       | [(n & p & _ & _ & H) | [(n & p & pay & _ & _ & _ & _ & H)
       | (n & p & pay & _ & _ & _ & _ & H)]]]]];
    rewrite H in Hrun; injection Hrun as <- _; auto.
  - destruct (fst (_on_payment_succeeded self p (db s))); cbn; auto.
  - destruct (fst (_on_payment_canceled self p (db s))); cbn; auto.
Qed.

(** X2. A status update happens only for a payment id that the lookup has
    just confirmed for the event of the notification. The calls of a request
    are nothing, the lookup alone, or the lookup followed by the one matching
    update; without an update the store is as before, and with one it is the
    store that update left. *)
Theorem webhook_update_requires_confirmation self request s :
  let s' := snd (webhook_handler self request s) in
  exists new,
    calls s' = calls s ++ new
    /\ (((new = [] \/ exists payment_id, new = [FindOne payment_id]) /\ db s' = db s)
        \/ exists n payment_id payment,
             carries_payment_id request n payment_id
             /\ Payment_find_one self payment_id = Return payment
             /\ remote_confirms (event n) payment
             /\ ((event n = PAYMENT_SUCCEEDED
                  /\ new = [FindOne payment_id; HandlePaymentSucceeded payment_id]
                  /\ db s' = snd (_on_payment_succeeded self payment_id (db s)))
                 \/ (event n = PAYMENT_CANCELED
                     /\ new = [FindOne payment_id; HandlePaymentCanceled payment_id]
                     /\ db s' = snd (_on_payment_canceled self payment_id (db s))))).
Proof.
  cbn zeta.
  destruct (webhook_handler_cases self request s)
    as [(e & _ & H) | [(n & _ & _ & H) | [(n & p & e & _ & _ & _ & H)
       | [(n & p & _ & _ & H) | [(n & p & pay & Hreach & Hfind & Hb & He & H)
       | (n & p & pay & Hreach & Hfind & Hb & He & H)]]]]];
    rewrite H; cbn [snd calls db].
  - exists []. rewrite app_nil_r. auto.
  - exists []. rewrite app_nil_r. auto.
  - exists []. rewrite app_nil_r. auto.
  - exists [FindOne p]. split; [reflexivity|]. left. eauto.
  - eexists. split; [reflexivity|]. right. exists n, p, pay.
    split; [apply Hreach|]. split; [assumption|].
    split; [apply remote_confirms_spec, Hb|]. left. auto.
  - eexists. split; [reflexivity|]. right. exists n, p, pay.
    split; [apply Hreach|]. split; [assumption|].
    split; [apply remote_confirms_spec, Hb|]. right. auto.
Qed.

(** X3. The verdict of the address helper and the addresses themselves do
    not matter: two requests with the same body, handled by gateways with the
    same provider and status updates, get the same answer and leave the same
    state, provided each helper returns. *)
Theorem webhook_ignores_trust_verdict self1 self2 request1 request2 s :
  same_collaborators self1 self2 ->
  notification request1 = notification request2 ->
  source_ip_evaluated self1 request1 ->
  source_ip_evaluated self2 request2 ->
  webhook_handler self1 request1 s = webhook_handler self2 request2 s.
Proof.
  intros (Hfind & Hsucc & Hcanc) Hbody Hip1 Hip2.
  destruct (notification request1) as [n|e] eqn:Hn1.
  2: { rewrite (webhook_unparsable_body self1 request1 s e Hn1).
       rewrite (webhook_unparsable_body self2 request2 s e); auto. }
  assert (Hmissing : object_id n = None \/ object_id n = Some ""
                     \/ exists payment_id, object_id n = Some payment_id /\ payment_id <> "").
  { destruct (object_id n) as [p|]; [|auto].
    destruct (String.eqb_spec p "") as [->|Hne]; eauto. }
  destruct Hmissing as [Hid | [Hid | (payment_id & Hid & Hne)]].
  - rewrite (webhook_rejects_missing_payment_id_aux self1 request1 s n) by auto.
    rewrite (webhook_rejects_missing_payment_id_aux self2 request2 s n) by auto.
    reflexivity.
  - rewrite (webhook_rejects_missing_payment_id_aux self1 request1 s n) by auto.
    rewrite (webhook_rejects_missing_payment_id_aux self2 request2 s n) by auto.
    reflexivity.
  - rewrite (webhook_handler_run self1 request1 s n payment_id)
      by (repeat split; assumption).
    rewrite (webhook_handler_run self2 request2 s n payment_id)
      by (repeat split; auto).
    cbn zeta. rewrite <- Hfind.
    destruct (Payment_find_one self1 payment_id) as [payment|e]; [|reflexivity].
    destruct (negb _); [reflexivity|].
    unfold try_except, mbind, M_bind, handle_payment_succeeded,
      handle_payment_canceled, record, on_db, mbind, M_bind. cbn.
    rewrite <- Hsucc, <- Hcanc. reflexivity.
Qed.

(** X4. An event that is neither [payment.succeeded] nor [payment.canceled]
    is never confirmed: a request that reaches the lookup is answered 403
    after it, whatever the lookup says, and the last case of the handler's
    [match] is never taken. *)
Theorem webhook_unrecognised_event_403 self request s n payment_id :
  reaches_lookup self request n payment_id ->
  event n <> PAYMENT_SUCCEEDED ->
  event n <> PAYMENT_CANCELED ->
  webhook_handler self request s
  = (Return (Response_ 403), State (db s) (calls s ++ [FindOne payment_id])).
Proof.
  intros Hreach Hs Hc.
  rewrite (webhook_handler_run self request s n payment_id Hreach). cbn zeta.
  destruct (Payment_find_one self payment_id) as [payment|e]; [|reflexivity].
  unfold remote_confirmsb.
  apply String.eqb_neq in Hs, Hc. rewrite Hs, Hc. reflexivity.
Qed.

(** X5. The answer 400 has four causes only: the body does not parse, the
    payment id is missing or empty, the address helper raises, or the status
    update of a confirmed event raises. *)
Theorem webhook_400_causes self request s s' :
  webhook_handler self request s = (Return (Response_ 400), s') ->
  (exists e, notification request = Raise e)
  \/ (exists n,
        notification request = Return n
        /\ (object_id n = None \/ object_id n = Some ""))
  \/ (exists e,
        fst (fst (_extract_source_ip request)) <> ""
        /\ is_ip_trusted self (fst (fst (_extract_source_ip request))) = Raise e)
  \/ (exists n payment_id e,
        carries_payment_id request n payment_id
        /\ ((event n = PAYMENT_SUCCEEDED
             /\ fst (_on_payment_succeeded self payment_id (db s)) = Raise e)
            \/ (event n = PAYMENT_CANCELED
                /\ fst (_on_payment_canceled self payment_id (db s)) = Raise e))).
Proof.
  intros Hrun.
  destruct (webhook_handler_cases self request s)
    as [(e & Hn & H) | [(n & Hn & Hid & H) | [(n & p & e & _ & Hip & Hraise & H)
       | [(n & p & _ & _ & H) | [(n & p & pay & Hreach & _ & _ & He & H)
       | (n & p & pay & Hreach & _ & _ & He & H)]]]]].
  - left. eauto.
  - right. left. eauto.
  - right. right. left. eauto.
  - rewrite H in Hrun. discriminate Hrun.
  - right. right. right. rewrite H in Hrun.
    destruct (fst (_on_payment_succeeded self p (db s))) as [u|e] eqn:Hupd;
      [discriminate Hrun|].
    exists n, p, e. split; [apply Hreach|]. left. auto.
  - right. right. right. rewrite H in Hrun.
    destruct (fst (_on_payment_canceled self p (db s))) as [u|e] eqn:Hupd;
      [discriminate Hrun|].
    exists n, p, e. split; [apply Hreach|]. right. auto.
Qed.

(** X6. Deliveries are not deduplicated: the same confirmed
    [payment.succeeded] delivered twice is looked up twice and updates the
    status twice, the second update acting on the store the first one left;
    the second delivery is answered 200 when its update returns and 400 when
    it raises, whatever the first update did. *)
Theorem webhook_duplicate_delivery self request s n payment_id payment :
  reaches_lookup self request n payment_id ->
  Payment_find_one self payment_id = Return payment ->
  event n = PAYMENT_SUCCEEDED ->
  _normalize_status (status payment) = "succeeded" -> paid payment = true ->
  let first := _on_payment_succeeded self payment_id (db s) in
  let second := _on_payment_succeeded self payment_id (snd first) in
  (_ ← webhook_handler self request; webhook_handler self request) s
  = (Return (Response_ (answer_after (fst second))),
     State (snd second)
       (calls s ++ [FindOne payment_id; HandlePaymentSucceeded payment_id;
                    FindOne payment_id; HandlePaymentSucceeded payment_id])).
Proof.
  intros Hreach Hfind He Hst Hpaid. cbn zeta.
  assert (Hb : remote_confirmsb (event n) payment = true).
  { apply remote_confirms_spec. left. auto. }
  assert (Hone : forall s0,
    webhook_handler self request s0
    = (Return (Response_ (answer_after (fst (_on_payment_succeeded self payment_id (db s0))))),
       State (snd (_on_payment_succeeded self payment_id (db s0)))
         (calls s0 ++ [FindOne payment_id; HandlePaymentSucceeded payment_id]))).
  { intros s0.
    rewrite (webhook_handler_run self request s0 n payment_id Hreach), Hfind, Hb, He.
    cbn.
    unfold try_except, mbind, M_bind, handle_payment_succeeded, record, on_db,
      mbind, M_bind. cbn.
    destruct (_on_payment_succeeded self payment_id (db s0)) as [[u|e] d]; cbn;
      rewrite <- app_assoc; reflexivity. }
  unfold mbind at 1, M_bind at 1.
  rewrite (Hone s), Hone. cbn [calls db]. rewrite <- app_assoc. reflexivity.
Qed.

End WebhookMore.

Section SourceAddress.

Import Yookassa Situations.

Lemma split_first_comma_free (x : string) :
  comma_free x -> Str.split_first "," x = x.
Proof.
  unfold comma_free. induction x as [|c x IH]; simpl; [reflexivity|].
  intros [Hc Hx]%andb_true_iff.
  destruct (Ascii.eqb c ","); [discriminate Hc|]. f_equal. apply IH, Hx.
Qed.

Lemma split_first_append (first rest : string) :
  comma_free first ->
  Str.split_first "," (String.append first (String "," rest)) = first.
Proof.
  unfold comma_free. induction first as [|c first IH]; simpl; [reflexivity|].
  intros [Hc Hx]%andb_true_iff.
  destruct (Ascii.eqb c ","); [discriminate Hc|]. f_equal. apply IH, Hx.
Qed.

(** X7. The source address is the first entry of the forwarding chain,
    trimmed: of a header [first,rest] only [first] counts, a header without a
    comma counts whole, and the address of the socket is used only when the
    header is absent or empty. *)
Theorem source_ip_is_first_hop
    (body : result WebhookNotification) (socket : option string) :
  (forall first rest,
      comma_free first ->
      _extract_source_ip
        (Build_Request body (Some (String.append first (String "," rest))) socket)
      = (Str.strip first, String.append first (String "," rest), default "" socket))
  /\ (forall header,
        comma_free header -> header <> "" ->
        _extract_source_ip (Build_Request body (Some header) socket)
        = (Str.strip header, header, default "" socket))
  /\ _extract_source_ip (Build_Request body None socket)
     = (default "" socket, "", default "" socket)
  /\ _extract_source_ip (Build_Request body (Some "") socket)
     = (default "" socket, "", default "" socket).
Proof.
  split; [|split; [|split; reflexivity]].
  - intros first rest Hfree.
    cbv beta iota zeta delta [_extract_source_ip X_Forwarded_For remote from_option id].
    replace (Str.truthy (String.append first (String "," rest))) with true
      by (destruct first; reflexivity).
    rewrite (split_first_append first rest Hfree). reflexivity.
  - intros header Hfree Hne.
    cbv beta iota zeta delta [_extract_source_ip X_Forwarded_For remote from_option id].
    replace (Str.truthy header) with true by (destruct header; [contradiction | reflexivity]).
    rewrite (split_first_comma_free header Hfree). reflexivity.
Qed.

End SourceAddress.

(** *** The further properties on the sample gateway *)

Section WebhookMoreSamples.

Import Yookassa Situations Samples.

(** The same forged notification from a listed address and through the
    sample gateway with a helper that trusts nobody. *)
Lemma webhook_ignores_trust_verdict_witness :
  webhook_handler shop (webhook PAYMENT_SUCCEEDED (Some "p-pending") (Some "185.71.76.1")) idle
  = webhook_handler distrustful_shop
      (webhook PAYMENT_SUCCEEDED (Some "p-pending") (Some "10.1.1.1, 185.71.76.1")) idle.
Proof.
  apply (webhook_ignores_trust_verdict shop distrustful_shop).
  - repeat split; reflexivity.
  - reflexivity.
  - right. exists true. reflexivity.
  - right. exists false. reflexivity.
Defined.

(** A [refund.succeeded] notification about a paid payment. *)
Lemma webhook_unrecognised_event_403_witness :
  webhook_handler shop (webhook "refund.succeeded" (Some "p-paid") None) idle
  = (Return (Response_ 403), State [] [FindOne "p-paid"]).
Proof.
  apply (webhook_unrecognised_event_403 shop
           (webhook "refund.succeeded" (Some "p-paid") None) idle
           (Build_WebhookNotification "refund.succeeded" (Some "p-paid")) "p-paid").
  - split; [repeat split; discriminate | right; exists false; reflexivity].
  - discriminate.
  - discriminate.
Defined.

(** The garbled forwarding header: the cause is the helper. *)
Lemma webhook_400_causes_witness :
  (exists e, notification (webhook PAYMENT_SUCCEEDED (Some "p-pending") (Some "not-an-ip"))
             = Raise e)
  \/ (exists n,
        notification (webhook PAYMENT_SUCCEEDED (Some "p-pending") (Some "not-an-ip"))
        = Return n
        /\ (object_id n = None \/ object_id n = Some ""))
  \/ (exists e,
        fst (fst (_extract_source_ip
                    (webhook PAYMENT_SUCCEEDED (Some "p-pending") (Some "not-an-ip")))) <> ""
        /\ is_ip_trusted shop
             (fst (fst (_extract_source_ip
                          (webhook PAYMENT_SUCCEEDED (Some "p-pending") (Some "not-an-ip")))))
           = Raise e)
  \/ (exists n payment_id e,
        carries_payment_id
          (webhook PAYMENT_SUCCEEDED (Some "p-pending") (Some "not-an-ip")) n payment_id
        /\ ((event n = PAYMENT_SUCCEEDED
             /\ fst (_on_payment_succeeded shop payment_id (db idle)) = Raise e)
            \/ (event n = PAYMENT_CANCELED
                /\ fst (_on_payment_canceled shop payment_id (db idle)) = Raise e))).
Proof.
  apply (webhook_400_causes shop
           (webhook PAYMENT_SUCCEEDED (Some "p-pending") (Some "not-an-ip")) idle idle).
  reflexivity.
Defined.

(** The genuine [payment.succeeded], delivered twice. *)
Lemma webhook_duplicate_delivery_witness :
  (_ ← webhook_handler shop (webhook PAYMENT_SUCCEEDED (Some "p-paid") None);
   webhook_handler shop (webhook PAYMENT_SUCCEEDED (Some "p-paid") None)) idle
  = (Return (Response_ 200),
     State [("p-paid", "succeeded"); ("p-paid", "succeeded")]
       [FindOne "p-paid"; HandlePaymentSucceeded "p-paid";
        FindOne "p-paid"; HandlePaymentSucceeded "p-paid"]).
Proof.
  apply (webhook_duplicate_delivery shop
           (webhook PAYMENT_SUCCEEDED (Some "p-paid") None) idle
           (Build_WebhookNotification PAYMENT_SUCCEEDED (Some "p-paid")) "p-paid"
           (Build_PaymentResponse (WithValue "succeeded") true)); try reflexivity.
  split; [repeat split; discriminate | right; exists false; reflexivity].
Defined.

(** The forged notification of a pending payment: 403. *)
Lemma webhook_answers_200_400_403_witness : 403 = 200 \/ 403 = 400 \/ 403 = 403.
Proof.
  apply (webhook_answers_200_400_403 shop
           (webhook PAYMENT_SUCCEEDED (Some "p-pending") (Some "6.6.6.6, 10.0.0.1")) idle
           403 (State [] [FindOne "p-pending"])).
  reflexivity.
Defined.

(** A chain of two proxies with blanks around the first hop. *)
Lemma source_ip_is_first_hop_witness :
  _extract_source_ip
    (Build_Request (Raise (Exception "JSONDecodeError"))
       (Some " 203.0.113.9 , 10.0.0.1") (Some "10.0.0.7"))
  = ("203.0.113.9", " 203.0.113.9 , 10.0.0.1", "10.0.0.7").
Proof.
  apply (proj1 (source_ip_is_first_hop (Raise (Exception "JSONDecodeError"))
                  (Some "10.0.0.7")) " 203.0.113.9 " " 10.0.0.1").
  reflexivity.
Defined.

End WebhookMoreSamples.

(** * Properties of [create_payment] *)

Section CreatePayment.

Import Checkout.

Context {DB : Type}.
Implicit Types (self : Services DB) (data : SubscriptionData) (s : state DB).

(** The three ways a call can go. *)
Lemma create_payment_cases self data s :
  (exists e,
      get_me_username self = Raise e
      /\ create_payment self data s = (Raise e, s))
  \/ exists bot_username,
       get_me_username self = Return bot_username
       /\ ((exists e,
              Payment_create self (payment_request self bot_username data) = Raise e
              /\ create_payment self data s
                 = (Raise e,
                    State (db s)
                      (calls s ++ [PaymentCreate (payment_request self bot_username data)])))
           \/ exists response,
                Payment_create self (payment_request self bot_username data) = Return response
                /\ create_payment self data s
                   = (match fst (Transaction_create self
                                   (Build_Transaction (user_id data) (pack data)
                                      (id response) PENDING) (db s)) with
                      | Raise e => Raise e
                      | Return _ => getitem (confirmation response) "confirmation_url"
                      end,
                      State (snd (Transaction_create self
                                    (Build_Transaction (user_id data) (pack data)
                                       (id response) PENDING) (db s)))
                        (calls s
                         ++ [PaymentCreate (payment_request self bot_username data);
                             TransactionCreate
                               (Build_Transaction (user_id data) (pack data)
                                  (id response) PENDING)]))).
Proof.
  unfold create_payment, mbind, M_bind, lift, record, on_db, mret, M_ret.
  destruct (get_me_username self) as [bot_username|e]; [right | left; eauto].
  exists bot_username. split; [reflexivity|]. cbn.
  destruct (Payment_create self (payment_request self bot_username data))
    as [response|e]; [right | left; eauto].
  exists response. split; [reflexivity|]. cbn.
  destruct (Transaction_create self _ (db s)) as [[u|e] d]; cbn;
    rewrite <- app_assoc; [|reflexivity].
  destruct (getitem (confirmation response) "confirmation_url"); reflexivity.
Qed.

(** X9. A transaction is recorded only for a payment that the provider has
    just created: the one [Transaction.create] of a call comes after its
    [Payment.create], carries the id of the provider's answer, the user and
    the packed subscription of the request, and the status pending; and when
    no transaction is recorded the store is as before. *)
Theorem create_payment_records_created_payment self data s :
  let s' := snd (create_payment self data s) in
  exists new,
    calls s' = calls s ++ new
    /\ (forall transaction,
          In (TransactionCreate transaction) new ->
          exists bot_username response,
            get_me_username self = Return bot_username
            /\ Payment_create self (payment_request self bot_username data) = Return response
            /\ transaction
               = Build_Transaction (user_id data) (pack data) (id response) PENDING
            /\ new = [PaymentCreate (payment_request self bot_username data);
                      TransactionCreate transaction]
            /\ db s' = snd (Transaction_create self transaction (db s)))
    /\ ((forall transaction, ~ In (TransactionCreate transaction) new) -> db s' = db s).
Proof.
  cbn zeta.
  destruct (create_payment_cases self data s)
    as [(e & Hme & ->) | (u & Hme & [(e & Hcreate & ->) | (response & Hcreate & ->)])];
    cbn [snd calls db].
  - exists []. rewrite app_nil_r. split; [reflexivity|]. split; [intros t []|reflexivity].
  - eexists. split; [reflexivity|]. split; [|reflexivity].
    intros t [Ht|[]]. discriminate Ht.
  - eexists. split; [reflexivity|]. split.
    + intros t [Ht|[Ht|[]]]; [discriminate Ht|]. injection Ht as <-.
      exists u, response. auto.
    + intros Hnone. exfalso. eapply Hnone. right. left. reflexivity.
Qed.

(** X10. When [create_payment] returns, what it returns is the
    [confirmation_url] of the provider's answer to the one request it sent;
    that request charges the price of the subscription in the shop's
    currency, with capture, a redirect to the bot's page and a receipt of a
    single item of quantity one for the same amount; and the pending
    transaction of that payment has been recorded and stored. *)
Theorem create_payment_returns_confirmation_url self data s pay_url s' :
  create_payment self data s = (Return pay_url, s') ->
  exists bot_username response,
    get_me_username self = Return bot_username
    /\ Payment_create self (payment_request self bot_username data) = Return response
    /\ getitem (confirmation response) "confirmation_url" = Return pay_url
    /\ Transaction_create self
         (Build_Transaction (user_id data) (pack data) (id response) PENDING) (db s)
       = (Return tt, db s')
    /\ calls s'
       = calls s
         ++ [PaymentCreate (payment_request self bot_username data);
             TransactionCreate
               (Build_Transaction (user_id data) (pack data) (id response) PENDING)]
    /\ (let request := payment_request self bot_username data in
        amount request = Build_Amount (price data) (currency_code self)
        /\ (exists item,
              items (receipt request) = [item]
              /\ item_amount item = amount request /\ quantity item = 1)
        /\ capture request = true
        /\ return_url request = String.append "https://t.me/" bot_username).
Proof.
  intros Hrun.
  destruct (create_payment_cases self data s)
    as [(e & Hme & H) | (u & Hme & [(e & Hcreate & H) | (response & Hcreate & H)])];
    rewrite H in Hrun; try discriminate Hrun.
  exists u, response.
  destruct (Transaction_create self _ (db s)) as [[[]|e] d] eqn:Hstore;
    cbn [fst snd] in Hrun; [|discriminate Hrun].
  injection Hrun as Hurl <-.
  split; [assumption|]. split; [assumption|]. split; [assumption|].
  split; [reflexivity|]. split; [reflexivity|].
  cbn. split; [reflexivity|]. split; [eexists; split; [reflexivity|]; auto|]. auto.
Qed.

(** X11. A provider answer without [confirmation_url] makes [create_payment]
    raise [KeyError], but only after the pending transaction has been
    stored: the store is the one [Transaction.create] left. *)
Theorem create_payment_missing_url self data s bot_username response d :
  get_me_username self = Return bot_username ->
  Payment_create self (payment_request self bot_username data) = Return response ->
  (forall url, ~ In ("confirmation_url", url) (confirmation response)) ->
  Transaction_create self
    (Build_Transaction (user_id data) (pack data) (id response) PENDING) (db s)
  = (Return tt, d) ->
  create_payment self data s
  = (Raise (Exception "KeyError"),
     State d
       (calls s
        ++ [PaymentCreate (payment_request self bot_username data);
            TransactionCreate
              (Build_Transaction (user_id data) (pack data) (id response) PENDING)])).
Proof.
  intros Hme Hcreate Hmissing Hstore.
  destruct (create_payment_cases self data s)
    as [(e & Hme' & H) | (u & Hme' & [(e & Hcreate' & H) | (response' & Hcreate' & H)])];
    rewrite Hme in Hme'; try discriminate Hme'.
  - injection Hme' as <-. rewrite Hcreate in Hcreate'. discriminate Hcreate'.
  - injection Hme' as <-. rewrite Hcreate in Hcreate'. injection Hcreate' as <-.
    rewrite H, Hstore. cbn [fst snd]. f_equal.
    clear - Hmissing. induction (confirmation response) as [|[k v] l IH]; [reflexivity|].
    cbn [getitem]. destruct (String.eqb_spec k "confirmation_url") as [->|Hne].
    + exfalso. apply (Hmissing v). left. reflexivity.
    + apply IH. intros url Hin. apply (Hmissing url). right. exact Hin.
Qed.

End CreatePayment.

(** *** [create_payment] on the sample checkout *)

Section CreatePaymentSamples.

Import Checkout Samples.

Lemma create_payment_returns_confirmation_url_witness :
  exists bot_username response,
    get_me_username (checkout [("type", "redirect"); ("confirmation_url", "https://pay/1")])
    = Return bot_username
    /\ Payment_create (checkout [("type", "redirect"); ("confirmation_url", "https://pay/1")])
         (payment_request
            (checkout [("type", "redirect"); ("confirmation_url", "https://pay/1")])
            bot_username order)
       = Return response
    /\ getitem (confirmation response) "confirmation_url" = Return "https://pay/1".
Proof.
  destruct (create_payment_returns_confirmation_url
              (checkout [("type", "redirect"); ("confirmation_url", "https://pay/1")])
              order no_calls "https://pay/1"
              (State [Build_Transaction 42 "42:2:30:199" "pay-1" PENDING]
                 [PaymentCreate
                    (payment_request
                       (checkout [("type", "redirect"); ("confirmation_url", "https://pay/1")])
                       "vpn_bot" order);
                  TransactionCreate (Build_Transaction 42 "42:2:30:199" "pay-1" PENDING)])
              eq_refl)
    as (u & response & H1 & H2 & H3 & _).
  exists u, response. auto.
Defined.

Lemma create_payment_missing_url_witness :
  create_payment (checkout [("type", "redirect")]) order no_calls
  = (Raise (Exception "KeyError"),
     State [Build_Transaction 42 "42:2:30:199" "pay-1" PENDING]
       [PaymentCreate (payment_request (checkout [("type", "redirect")]) "vpn_bot" order);
        TransactionCreate (Build_Transaction 42 "42:2:30:199" "pay-1" PENDING)]).
Proof.
  apply (create_payment_missing_url (checkout [("type", "redirect")]) order no_calls
           "vpn_bot" (Build_PaymentCreated "pay-1" [("type", "redirect")])).
  - reflexivity.
  - reflexivity.
  - intros url [H|[]]. discriminate H.
  - reflexivity.
Defined.

End CreatePaymentSamples.

(** * Further properties of the promocode generator *)

(** ** Division beyond the horizon *)

Section DivisionMore.

Local Open Scope bool_scope.

Lemma scale_pos x n : 0 < x -> 0 < scale x n.
Proof.
  intros Hx. unfold scale.
  assert (0 < 2 ^ Z.max 0 n) by (apply Z.pow_pos_nonneg; lia). nia.
Qed.

(** [b * 2^k <= a] for the logarithm [k] of the quotient. *)
Lemma quotient_log2_lower a b :
  0 < a -> 0 < b ->
  scale b (quotient_log2 a b) <= scale a (- quotient_log2 a b).
Proof.
  intros Ha Hb. unfold quotient_log2.
  set (d := Z.log2 a - Z.log2 b).
  destruct (Z.leb_spec (scale b d) (scale a (- d))) as [Hle|Hgt]; [exact Hle|].
  pose proof (Z.log2_spec a Ha) as [Ha1 Ha2].
  pose proof (Z.log2_spec b Hb) as [Hb1 Hb2].
  pose proof (Z.log2_nonneg a) as Hla. pose proof (Z.log2_nonneg b) as Hlb.
  unfold scale. destruct (Z_le_gt_dec 1 d) as [Hd|Hd].
  - rewrite (Z.max_r 0 (d - 1)), (Z.max_l 0 (- (d - 1))) by lia.
    rewrite Z.pow_0_r, Z.mul_1_r.
    assert (Hpow : 2 ^ Z.succ (Z.log2 b) * 2 ^ (d - 1) = 2 ^ Z.log2 a).
    { rewrite <- Z.pow_add_r by lia. f_equal. unfold d. lia. }
    assert (0 < 2 ^ (d - 1)) by (apply Z.pow_pos_nonneg; lia). nia.
  - rewrite (Z.max_l 0 (d - 1)), (Z.max_r 0 (- (d - 1))) by lia.
    rewrite Z.pow_0_r, Z.mul_1_r.
    assert (Hpow : 2 ^ Z.log2 a * 2 ^ (- (d - 1)) = 2 ^ Z.succ (Z.log2 b)).
    { rewrite <- Z.pow_add_r by lia. f_equal. unfold d. lia. }
    assert (0 < 2 ^ (- (d - 1))) by (apply Z.pow_pos_nonneg; lia). nia.
Qed.

(** A quotient of at least [2^n] has a logarithm of at least [n]. *)
Lemma quotient_log2_ge a b n :
  0 < a -> 0 < b -> 0 <= n -> 2 ^ n * b <= a -> n <= quotient_log2 a b.
Proof.
  intros Ha Hb Hn Hab. unfold quotient_log2.
  set (d := Z.log2 a - Z.log2 b).
  pose proof (Z.log2_spec a Ha) as [Ha1 Ha2].
  pose proof (Z.log2_spec b Hb) as [Hb1 Hb2].
  pose proof (Z.log2_nonneg a) as Hla. pose proof (Z.log2_nonneg b) as Hlb.
  assert (Hnd : n <= d).
  { assert (n + Z.log2 b < Z.succ (Z.log2 a)); [|unfold d; lia].
    apply (Z.pow_lt_mono_r_iff 2); [lia | lia |].
    rewrite Z.pow_add_r by lia.
    assert (0 < 2 ^ n) by (apply Z.pow_pos_nonneg; lia). nia. }
  destruct (Z.leb_spec (scale b d) (scale a (- d))) as [Hle|Hgt]; [exact Hnd|].
  destruct (Z.eq_dec n d) as [Heq|Hne]; [|lia]. exfalso. subst n.
  unfold scale in Hgt. rewrite (Z.max_r 0 d), (Z.max_l 0 (- d)) in Hgt by lia.
  rewrite Z.pow_0_r in Hgt. lia.
Qed.

(** The rounded quotient of two positive integers has a positive mantissa,
    so its ceiling is at least one. *)
Lemma int_true_divide_ceil_positive a b x :
  0 < a -> 0 < b -> int_true_divide a b = Return x -> 1 <= math_ceil x.
Proof.
  intros Ha Hb. unfold int_true_divide.
  pose proof (quotient_log2_lower a b Ha Hb) as Hlow.
  set (k := quotient_log2 a b) in *.
  set (s := 52 - k).
  set (n := scale a s). set (d := scale b (- s)).
  assert (Hd : 0 < d) by (apply scale_pos; exact Hb).
  assert (Hnd : d <= n).
  { unfold n, d, scale in *. unfold s.
    destruct (Z_le_gt_dec 52 k) as [Hk|Hk].
    - rewrite (Z.max_l 0 (52 - k)), (Z.max_r 0 (- (52 - k))) by lia.
      rewrite (Z.max_r 0 k), (Z.max_l 0 (- k)) in Hlow by lia.
      rewrite Z.pow_0_r, Z.mul_1_r in *.
      assert (2 ^ (- (52 - k)) <= 2 ^ k) by (apply Z.pow_le_mono_r; lia). nia.
    - rewrite (Z.max_r 0 (52 - k)), (Z.max_l 0 (- (52 - k))) by lia.
      rewrite Z.pow_0_r, Z.mul_1_r.
      destruct (Z_le_gt_dec 0 k) as [Hk0|Hk0].
      + rewrite (Z.max_r 0 k), (Z.max_l 0 (- k)) in Hlow by lia.
        rewrite Z.pow_0_r, Z.mul_1_r in Hlow.
        assert (0 < 2 ^ k) by (apply Z.pow_pos_nonneg; lia).
        assert (0 < 2 ^ (52 - k)) by (apply Z.pow_pos_nonneg; lia). nia.
      + rewrite (Z.max_l 0 k), (Z.max_r 0 (- k)) in Hlow by lia.
        rewrite Z.pow_0_r, Z.mul_1_r in Hlow.
        assert (2 ^ (- k) <= 2 ^ (52 - k)) by (apply Z.pow_le_mono_r; lia). nia. }
  assert (Hq : 1 <= n / d).
  { apply Z.div_le_lower_bound; lia. }
  set (q := n / d) in *. set (r := n mod d).
  set (m := if (d <? 2 * r) || ((d =? 2 * r) && Z.odd q) then q + 1 else q).
  assert (Hm : 1 <= m).
  { unfold m. destruct ((d <? 2 * r) || ((d =? 2 * r) && Z.odd q)); lia. }
  destruct ((971 <? k - 52) || ((k - 52 =? 971) && (m =? 2 ^ 53))); [discriminate|].
  intros [= <-]. unfold math_ceil. cbn [mantissa exponent].
  destruct (Z.leb_spec 0 (k - 52)) as [He|He].
  - assert (0 < 2 ^ (k - 52)) by (apply Z.pow_pos_nonneg; lia). nia.
  - assert (HP : 0 < 2 ^ (- (k - 52))) by (apply Z.pow_pos_nonneg; lia).
    assert (- m / 2 ^ (- (k - 52)) < 0); [|lia].
    apply Z.div_lt_upper_bound; lia.
Qed.

(** A quotient of [2^1024] or more does not fit a float. *)
Lemma int_true_divide_overflow a b :
  0 < b -> 2 ^ 1024 * b <= a -> int_true_divide a b = Raise OverflowError.
Proof.
  intros Hb Hab.
  assert (Ha : 0 < a) by (assert (0 < 2 ^ 1024) by (apply Z.pow_pos_nonneg; lia); nia).
  pose proof (quotient_log2_ge a b 1024 Ha Hb ltac:(lia) Hab) as Hk.
  unfold int_true_divide. set (k := quotient_log2 a b) in *.
  assert (H971 : (971 <? k - 52) = true) by (apply Z.ltb_lt; lia).
  rewrite H971. reflexivity.
Qed.

End DivisionMore.

(** ** Remaining days, for every input *)

Section RemainingDaysMore.

Import Promocodes Situations.

Lemma normalize_days_zero_or_minimum_aux expiry now min_days days :
  normalize_days expiry now min_days = Return days ->
  days = 0 \/ (1 <= days /\ min_days <= days).
Proof.
  unfold normalize_days.
  destruct (Z.leb_spec (expiry - now) 0) as [Hle|Hgt].
  - intros [= <-]. auto.
  - destruct (int_true_divide (expiry - now) MS_PER_DAY) as [x|e] eqn:Hdiv; cbn;
      [|discriminate].
    pose proof (int_true_divide_ceil_positive (expiry - now) MS_PER_DAY x Hgt eq_refl Hdiv)
      as Hpos.
    destruct (Z.ltb_spec (math_ceil x) min_days); intros [= <-]; [auto | right; lia].
Qed.

(** X12. Whatever the expiry, the clock and the minimum, a result of
    [normalize_days] is 0 or at least one day and at least the minimum; it is
    0 for an expiry that is not after the clock. *)
Theorem normalize_days_zero_or_minimum expiry now min_days days :
  normalize_days expiry now min_days = Return days ->
  (days = 0 \/ (1 <= days /\ min_days <= days))
  /\ (expiry <= now -> days = 0).
Proof.
  intros Hdays. split; [exact (normalize_days_zero_or_minimum_aux _ _ _ _ Hdays)|].
  intros Hexp. rewrite normalize_days_expired in Hdays by assumption.
  injection Hdays as <-. reflexivity.
Qed.

Lemma normalize_days_zero_or_minimum_witness :
  (5 = 0 \/ (1 <= 5 /\ 2 <= 5)) /\ (1700000000000 + 5 * MS_PER_DAY <= 1700000000000 -> 5 = 0).
Proof.
  apply (normalize_days_zero_or_minimum (1700000000000 + 5 * MS_PER_DAY) 1700000000000 2 5).
  reflexivity.
Defined.

(** X13. An expiry [2^1024] days or more after the clock makes
    [normalize_days] raise [OverflowError]: the quotient does not fit a
    float. *)
Theorem normalize_days_overflow expiry now min_days :
  now + 2 ^ 1024 * MS_PER_DAY <= expiry ->
  normalize_days expiry now min_days = Raise OverflowError.
Proof.
  intros H. unfold normalize_days.
  assert (0 < 2 ^ 1024) by (apply Z.pow_pos_nonneg; lia).
  destruct (Z.leb_spec (expiry - now) 0) as [Hle|Hgt].
  - rewrite MS_PER_DAY_value in H. lia.
  - rewrite int_true_divide_overflow; [reflexivity | reflexivity | lia].
Qed.

Lemma normalize_days_overflow_witness :
  normalize_days (2 ^ 1024 * MS_PER_DAY) 0 1 = Raise OverflowError.
Proof.
  apply (normalize_days_overflow (2 ^ 1024 * MS_PER_DAY) 0 1). lia.
Defined.

Lemma ceil_div_mono a a' b : 0 < b -> a <= a' -> ceil_div a b <= ceil_div a' b.
Proof.
  intros Hb Ha. unfold ceil_div.
  assert (- a' / b <= - a / b) by (apply Z.div_le_mono; lia). lia.
Qed.

(** X14. Within the horizon a later expiry never gives fewer days. *)
Theorem normalize_days_monotone expiry1 expiry2 now min_days :
  expiry1 <= expiry2 ->
  expiry2 < now + 2 ^ 27 * MS_PER_DAY ->
  exists days1 days2,
    normalize_days expiry1 now min_days = Return days1
    /\ normalize_days expiry2 now min_days = Return days2
    /\ days1 <= days2.
Proof.
  intros H12 Hhor.
  destruct (Z_le_gt_dec expiry2 now) as [H2|H2].
  - rewrite !normalize_days_expired by lia. exists 0, 0. auto with zarith.
  - rewrite (normalize_days_exact expiry2) by lia.
    pose proof (ceil_div_positive (expiry2 - now) ltac:(lia)) as Hc2.
    destruct (Z_le_gt_dec expiry1 now) as [H1|H1].
    + rewrite normalize_days_expired by lia.
      eexists _, _. split; [reflexivity|]. split; [reflexivity|].
      destruct (_ <? _); lia.
    + rewrite (normalize_days_exact expiry1) by lia.
      pose proof (ceil_div_positive (expiry1 - now) ltac:(lia)) as Hc1.
      pose proof (ceil_div_mono (expiry1 - now) (expiry2 - now) MS_PER_DAY
                    ltac:(reflexivity) ltac:(lia)) as Hmono.
      eexists _, _. split; [reflexivity|]. split; [reflexivity|].
      destruct (Z.ltb_spec (ceil_div (expiry1 - now) MS_PER_DAY) min_days);
        destruct (Z.ltb_spec (ceil_div (expiry2 - now) MS_PER_DAY) min_days); lia.
Qed.

Lemma normalize_days_monotone_witness :
  exists days1 days2,
    normalize_days (1700000000000 + 1) 1700000000000 1 = Return days1
    /\ normalize_days (1700000000000 + 3 * MS_PER_DAY) 1700000000000 1 = Return days2
    /\ days1 <= days2.
Proof.
  apply (normalize_days_monotone (1700000000000 + 1) (1700000000000 + 3 * MS_PER_DAY)
           1700000000000 1).
  - vm_compute. discriminate.
  - vm_compute. reflexivity.
Defined.

End RemainingDaysMore.

(** ** The collection, row by row *)

Section CollectionMore.

Import Promocodes Situations.

(** What a candidate says about its client. *)
Lemma examine_client_candidate incl min_days unlimited now ib c row :
  examine_client incl min_days unlimited now ib c = Return (Candidate row) ->
  entry_inbound_id row = ib
  /\ entry_email row = Str.strip (client_email c)
  /\ entry_client_id row = Str.strip (client_id c)
  /\ entry_email row <> ""
  /\ (incl = false -> Str.isdigit (entry_email row) = false)
  /\ min_days <= entry_days row
  /\ (0 < expiryTime c -> 1 <= entry_days row).
Proof.
  intros H.
  assert (Hpass : passes_email_tests incl c).
  { unfold examine_client in H. unfold passes_email_tests.
    destruct (Str.strip (client_email c)) as [|ch email]; cbn [Str.truthy negb] in H;
      [discriminate|].
    split; [discriminate|].
    destruct (Str.isdigit (String ch email)); [|auto].
    destruct incl; [auto|]. cbn [andb negb] in H. discriminate. }
  rewrite (examine_client_passed _ _ _ _ _ _ Hpass) in H. cbn zeta in H.
  destruct Hpass as [Hne Hnum].
  assert (Hdigit : incl = false -> Str.isdigit (Str.strip (client_email c)) = false).
  { intros ->. destruct Hnum; [assumption | discriminate]. }
  destruct (Z.leb_spec (expiryTime c) 0) as [Hexp|Hexp].
  - destruct unlimited as [u|]; [|discriminate]. injection H as <-.
    cbn [entry_inbound_id entry_email entry_client_id entry_days].
    repeat split; try assumption; lia.
  - destruct (normalize_days (expiryTime c) now min_days) as [days|e] eqn:Hdays;
      [|discriminate].
    change (Return days ≫= _) with
      (if days <=? 0
       then Return (Continue (Some (Build_skip ib (Str.strip (client_email c))
                                      (Str.strip (client_id c)) "expired_or_too_small")))
       else Return (Candidate (Build_entry ib (Str.strip (client_email c))
                                 (Str.strip (client_id c)) days))) in H.
    destruct (Z.leb_spec days 0); [discriminate|]. injection H as <-.
    cbn [entry_inbound_id entry_email entry_client_id entry_days].
    destruct (normalize_days_zero_or_minimum_aux _ _ _ _ Hdays) as [Hz|[H1 Hm]]; [lia|].
    repeat split; try assumption; lia.
Qed.

(** What a skip record says about its client. *)
Lemma examine_client_skip incl min_days unlimited now ib c r :
  examine_client incl min_days unlimited now ib c = Return (Continue (Some r)) ->
  skip_inbound_id r = ib
  /\ skip_client_id r = Str.strip (client_id c)
  /\ ((skip_reason r = "empty_email" /\ skip_email r = ""
       /\ Str.strip (client_email c) = "")
      \/ (skip_reason r = "unlimited_skipped"
          /\ skip_email r = Str.strip (client_email c)
          /\ passes_email_tests incl c /\ expiryTime c <= 0 /\ unlimited = None)
      \/ (skip_reason r = "expired_or_too_small"
          /\ skip_email r = Str.strip (client_email c)
          /\ passes_email_tests incl c /\ 0 < expiryTime c
          /\ normalize_days (expiryTime c) now min_days = Return 0)).
Proof.
  intros H.
  destruct (Str.strip (client_email c)) as [|ch email] eqn:Hemail.
  { unfold examine_client in H. rewrite Hemail in H. cbn [Str.truthy negb] in H.
    injection H as <-. cbn.
    split; [reflexivity|]. split; [reflexivity|]. left. auto. }
  assert (Hpass : passes_email_tests incl c).
  { unfold examine_client in H. unfold passes_email_tests. rewrite Hemail in *.
    cbn [Str.truthy negb] in H. split; [discriminate|].
    destruct (Str.isdigit (String ch email)); [|auto].
    destruct incl; [auto|]. cbn [andb negb] in H. discriminate. }
  rewrite (examine_client_passed _ _ _ _ _ _ Hpass) in H. cbn zeta in H.
  rewrite Hemail in H.
  destruct (Z.leb_spec (expiryTime c) 0) as [Hexp|Hexp].
  - destruct unlimited as [u|]; [discriminate|]. injection H as <-. cbn.
    split; [reflexivity|]. split; [reflexivity|]. right. left. auto.
  - destruct (normalize_days (expiryTime c) now min_days) as [days|e] eqn:Hdays;
      [|discriminate].
    change (Return days ≫= _) with
      (if days <=? 0
       then Return (Continue (Some (Build_skip ib (String ch email)
                                      (Str.strip (client_id c)) "expired_or_too_small")))
       else Return (Candidate (Build_entry ib (String ch email)
                                 (Str.strip (client_id c)) days))) in H.
    destruct (Z.leb_spec days 0) as [Hd|Hd]; [|discriminate]. injection H as <-. cbn.
    split; [reflexivity|]. split; [reflexivity|]. right. right.
    destruct (normalize_days_zero_or_minimum_aux _ _ _ _ Hdays) as [->|[H1 _]]; [auto|lia].
Qed.

(** A client is left out without a record exactly when it is [dropped]. *)
Lemma examine_client_dropped incl min_days unlimited now ib c v :
  examine_client incl min_days unlimited now ib c = Return v ->
  (v = Continue None <-> dropped incl c = true).
Proof.
  unfold examine_client, dropped.
  destruct (Str.truthy (Str.strip (client_email c))); cbn [negb andb].
  2: { intros [= <-]. split; discriminate. }
  destruct (Str.isdigit (Str.strip (client_email c))); destruct incl; cbn [negb andb].
  2: { intros [= <-]. split; reflexivity. }
  all: destruct (expiryTime c <=? 0);
    [ destruct unlimited; intros [= <-]; split; discriminate |].
  all: destruct (normalize_days (expiryTime c) now min_days) as [days|e]; [|discriminate].
  all: change (Return days ≫= ?f) with (f days); cbv beta.
  all: destruct (days <=? 0); intros [= <-]; split; discriminate.
Qed.

(** The loop over the clients of one inbound: the skip records it appends,
    the candidates it offers, and the count of both. *)
Lemma collect_clients_account incl min_days unlimited now ib clients :
  forall st st',
    for_each (collect_client incl min_days unlimited now ib) clients st = Return st' ->
    exists new cands,
      snd st' = snd st ++ new
      /\ client_candidates incl min_days unlimited now ib clients = Return cands
      /\ (forall r, In r new ->
            exists c, In c clients
              /\ examine_client incl min_days unlimited now ib c = Return (Continue (Some r)))
      /\ (forall row, In row cands ->
            exists c, In c clients
              /\ examine_client incl min_days unlimited now ib c = Return (Candidate row))
      /\ (length new + length cands + length (List.filter (dropped incl) clients)
          = length clients)%nat.
Proof.
  induction clients as [|c clients IH]; intros st st'; cbn [for_each].
  - intros [= <-]. exists [], []. rewrite app_nil_r. cbn.
    repeat split; try tauto.
  - destruct (collect_client incl min_days unlimited now ib st c) as [st1|e1] eqn:Hstep;
      cbn; [|discriminate].
    intros Hrun. unfold collect_client in Hstep.
    destruct (examine_client incl min_days unlimited now ib c) as [v|e] eqn:Hv;
      cbn in Hstep; [|discriminate].
    destruct (IH _ _ Hrun) as (new & cands & Hsk & Hcands & Hnew & Hcand & Hcount).
    pose proof (examine_client_dropped _ _ _ _ _ _ _ Hv) as Hdrop.
    rewrite Hcands. cbn.
    destruct v as [[r|]|row]; injection Hstep as <-; cbn [snd] in Hsk.
    + exists (r :: new), cands. rewrite Hsk, <- app_assoc.
      split; [reflexivity|]. split; [reflexivity|]. split; [|split].
      * intros r' [<-|Hin]; [exists c; auto|].
        destruct (Hnew r' Hin) as (c' & ? & ?). exists c'. auto.
      * intros row Hin. destruct (Hcand row Hin) as (c' & ? & ?). exists c'. auto.
      * destruct (dropped incl c); [destruct Hdrop as [_ Hd]; discriminate (Hd eq_refl)|].
        cbn. lia.
    + exists new, cands.
      split; [assumption|]. split; [reflexivity|]. split; [|split].
      * intros r' Hin. destruct (Hnew r' Hin) as (c' & ? & ?). exists c'. auto.
      * intros row Hin. destruct (Hcand row Hin) as (c' & ? & ?). exists c'. auto.
      * destruct Hdrop as [Hd _]. rewrite (Hd eq_refl). cbn. lia.
    + exists new, (row :: cands).
      split; [assumption|]. split; [reflexivity|]. split; [|split].
      * intros r' Hin. destruct (Hnew r' Hin) as (c' & ? & ?). exists c'. auto.
      * intros row' [<-|Hin]; [exists c; auto|].
        destruct (Hcand row' Hin) as (c' & ? & ?). exists c'. auto.
      * destruct (dropped incl c); [destruct Hdrop as [_ Hd]; discriminate (Hd eq_refl)|].
        cbn. lia.
Qed.

(** The loop over the inbound rows. *)
Lemma collect_inbounds_account incl min_days unlimited now rows :
  forall st st',
    for_each (collect_inbound incl min_days unlimited now) rows st = Return st' ->
    exists new cands,
      snd st' = snd st ++ new
      /\ candidates incl min_days unlimited now rows = Return cands
      /\ (forall r, In r new ->
            (exists row, In row rows /\ settings row = JSONDecodeError
                         /\ r = Build_skip (ib_id row) "" "" "broken_settings_json")
            \/ exists row clients c,
                 In row rows /\ settings row = Settings clients /\ In c clients
                 /\ examine_client incl min_days unlimited now (ib_id row) c
                    = Return (Continue (Some r)))
      /\ (forall e, In e cands ->
            exists row clients c,
              In row rows /\ settings row = Settings clients /\ In c clients
              /\ examine_client incl min_days unlimited now (ib_id row) c
                 = Return (Candidate e))
      /\ (length new + length cands + length (List.filter (dropped incl) (clients_of rows))
          = length (clients_of rows) + length (broken rows))%nat.
Proof.
  induction rows as [|row rows IH]; intros st st'; cbn [for_each].
  - intros [= <-]. exists [], []. rewrite app_nil_r. cbn.
    repeat split; try tauto.
  - destruct (collect_inbound incl min_days unlimited now st row) as [st1|e1] eqn:Hstep;
      cbn; [|discriminate].
    intros Hrun. unfold collect_inbound in Hstep.
    destruct (IH _ _ Hrun) as (new & cands & Hsk & Hcands & Hnew & Hcand & Hcount).
    unfold clients_of, broken. cbn [flat_map List.filter candidates].
    fold (clients_of rows). fold (broken rows).
    destruct (settings row) as [|clients] eqn:Hset.
    + injection Hstep as <-. cbn [snd] in Hsk. rewrite Hcands. cbn.
      exists (Build_skip (ib_id row) "" "" "broken_settings_json" :: new), cands.
      rewrite Hsk, <- app_assoc.
      split; [reflexivity|]. split; [reflexivity|]. split; [|split].
      * intros r [<-|Hin].
        -- left. exists row. auto.
        -- destruct (Hnew r Hin) as [(row' & ? & ? & ?) | (row' & cl & c & ? & ? & ? & ?)].
           ++ left. exists row'. auto.
           ++ right. exists row', cl, c. auto.
      * intros e Hin. destruct (Hcand e Hin) as (row' & cl & c & ? & ? & ? & ?).
        exists row', cl, c. auto.
      * cbn [length]. lia.
    + destruct (collect_clients_account _ _ _ _ _ _ _ _ Hstep)
        as (new1 & cands1 & Hsk1 & Hcands1 & Hnew1 & Hcand1 & Hcount1).
      rewrite Hcands1, Hcands. cbn.
      exists (new1 ++ new), (cands1 ++ cands).
      rewrite Hsk, Hsk1, <- app_assoc.
      split; [reflexivity|]. split; [reflexivity|]. split; [|split].
      * intros r [Hin|Hin]%in_app_iff.
        -- right. destruct (Hnew1 r Hin) as (c & ? & ?). exists row, clients, c. auto.
        -- destruct (Hnew r Hin) as [(row' & ? & ? & ?) | (row' & cl & c & ? & ? & ? & ?)].
           ++ left. exists row'. auto.
           ++ right. exists row', cl, c. auto.
      * intros e [Hin|Hin]%in_app_iff.
        -- destruct (Hcand1 e Hin) as (c & ? & ?). exists row, clients, c. auto.
        -- destruct (Hcand e Hin) as (row' & cl & c & ? & ? & ? & ?).
           exists row', cl, c. auto.
      * rewrite List.filter_app, !length_app. lia.
Qed.

(** The collection as a whole: its loops, and the sorted values of the
    dictionary they leave. *)
Lemma collect_legacy_clients_inv inbounds incl only min_days unlimited now result skipped :
  collect_legacy_clients inbounds incl only min_days unlimited now
  = Return (result, skipped) ->
  exists selected cands,
    for_each (collect_inbound incl min_days unlimited now) (fetch_inbounds only inbounds)
      ([], [])
    = Return (selected, skipped)
    /\ candidates incl min_days unlimited now (fetch_inbounds only inbounds) = Return cands
    /\ selection_of selected cands
    /\ result = sorted (fun row => Str.lower (entry_email row)) (dict_values selected)
    /\ (forall row, In row result -> In row cands).
Proof.
  unfold collect_legacy_clients.
  destruct (for_each _ (fetch_inbounds only inbounds) _) as [[selected sk]|e] eqn:Hrun;
    cbn; [|discriminate].
  intros [= <- <-].
  destruct (collect_inbounds_selection _ _ _ _ _ ([], []) _ [] selection_of_empty Hrun)
    as (cands & Hcands & Hsel).
  cbn in Hsel. exists selected, cands.
  split; [reflexivity|]. split; [assumption|]. split; [assumption|].
  split; [reflexivity|].
  intros row Hrow.
  apply (Permutation_in _ (sorted_perm _ (dict_values selected))) in Hrow.
  apply In_dict_values in Hrow as [k Hin].
  destruct Hsel as (_ & Hmax & _). apply (Hmax k row Hin).
Qed.

Lemma fetch_inbounds_In only inbounds row :
  In row (fetch_inbounds only inbounds) ->
  In row inbounds /\ (forall i, only = Some i -> ib_id row = i).
Proof.
  unfold fetch_inbounds. destruct only as [i|].
  - intros [Hin Heq]%filter_In. split; [assumption|].
    intros j [= <-]. apply Z.eqb_eq, Heq.
  - intros Hin. split; [assumption | discriminate].
Qed.

(** X15. Every row the collection returns has at least [min_days] days, and
    at least one day when no override for unlimited clients is given. *)
Theorem collected_rows_meet_minimum
    inbounds incl only min_days unlimited now result skipped :
  collect_legacy_clients inbounds incl only min_days unlimited now
  = Return (result, skipped) ->
  forall row, In row result ->
    min_days <= entry_days row /\ (unlimited = None -> 1 <= entry_days row).
Proof.
  intros Hrun row Hrow.
  destruct (collect_legacy_clients_inv _ _ _ _ _ _ _ _ Hrun)
    as (selected & cands & Hloop & Hcands & _ & _ & Hsub).
  destruct (collect_inbounds_account _ _ _ _ _ _ _ Hloop)
    as (new & cands' & _ & Hcands' & _ & Hcand & _).
  rewrite Hcands in Hcands'. injection Hcands' as <-.
  destruct (Hcand row (Hsub row Hrow)) as (r & clients & c & _ & _ & _ & Hex).
  pose proof (examine_client_candidate _ _ _ _ _ _ _ Hex)
    as (_ & _ & _ & _ & _ & Hmin & Hone).
  split; [assumption|]. intros ->. apply Hone.
  destruct (Z_le_gt_dec (expiryTime c) 0) as [Hexp|Hexp]; [|lia].
  exfalso. unfold examine_client in Hex.
  destruct (negb _); [discriminate|]. destruct (_ && _); [discriminate|].
  destruct (Z.leb_spec (expiryTime c) 0); [discriminate | lia].
Qed.

(** X16. Every row the collection returns stems from a client of a fetched
    inbound whose settings parse: it has the id of that inbound and the
    trimmed email and id of that client; its email is not blank, and not all
    digits unless numeric emails are included. *)
Theorem collected_rows_come_from_clients
    inbounds incl only min_days unlimited now result skipped :
  collect_legacy_clients inbounds incl only min_days unlimited now
  = Return (result, skipped) ->
  forall row, In row result ->
    entry_email row <> ""
    /\ (incl = false -> Str.isdigit (entry_email row) = false)
    /\ exists inbound clients c,
         In inbound inbounds /\ settings inbound = Settings clients /\ In c clients
         /\ entry_inbound_id row = ib_id inbound
         /\ entry_email row = Str.strip (client_email c)
         /\ entry_client_id row = Str.strip (client_id c).
Proof.
  intros Hrun row Hrow.
  destruct (collect_legacy_clients_inv _ _ _ _ _ _ _ _ Hrun)
    as (selected & cands & Hloop & Hcands & _ & _ & Hsub).
  destruct (collect_inbounds_account _ _ _ _ _ _ _ Hloop)
    as (new & cands' & _ & Hcands' & _ & Hcand & _).
  rewrite Hcands in Hcands'. injection Hcands' as <-.
  destruct (Hcand row (Hsub row Hrow)) as (r & clients & c & Hr & Hset & Hc & Hex).
  pose proof (examine_client_candidate _ _ _ _ _ _ _ Hex)
    as (Hib & Hemail & Hcid & Hne & Hdigit & _).
  split; [assumption|]. split; [assumption|].
  exists r, clients, c. apply fetch_inbounds_In in Hr as [Hr _].
  split; [assumption|]. split; [assumption|]. split; [assumption|].
  split; [assumption|]. split; assumption.
Qed.

(** X17. With [--inbound-id] every row and every skip record carries the id
    asked for. *)
Theorem inbound_filter_is_respected
    inbounds incl i min_days unlimited now result skipped :
  collect_legacy_clients inbounds incl (Some i) min_days unlimited now
  = Return (result, skipped) ->
  (forall row, In row result -> entry_inbound_id row = i)
  /\ (forall r, In r skipped -> skip_inbound_id r = i).
Proof.
  intros Hrun.
  destruct (collect_legacy_clients_inv _ _ _ _ _ _ _ _ Hrun)
    as (selected & cands & Hloop & Hcands & _ & _ & Hsub).
  destruct (collect_inbounds_account _ _ _ _ _ _ _ Hloop)
    as (new & cands' & Hsk & Hcands' & Hnew & Hcand & _).
  rewrite Hcands in Hcands'. injection Hcands' as <-. cbn in Hsk. subst new.
  split.
  - intros row Hrow.
    destruct (Hcand row (Hsub row Hrow)) as (r & clients & c & Hr & _ & _ & Hex).
    pose proof (examine_client_candidate _ _ _ _ _ _ _ Hex) as (-> & _).
    apply fetch_inbounds_In in Hr as [_ Hr]. apply Hr. reflexivity.
  - intros r Hr.
    destruct (Hnew r Hr) as [(row & Hrow & _ & ->) | (row & clients & c & Hrow & _ & _ & Hex)].
    + cbn. apply fetch_inbounds_In in Hrow as [_ Hrow]. apply Hrow. reflexivity.
    + pose proof (examine_client_skip _ _ _ _ _ _ _ Hex) as (-> & _).
      apply fetch_inbounds_In in Hrow as [_ Hrow]. apply Hrow. reflexivity.
Qed.

(** X18. Every skip record has one of the four reasons, and carries an email
    exactly when the reason is [unlimited_skipped] or
    [expired_or_too_small]. *)
Theorem skip_records_have_known_reasons
    inbounds incl only min_days unlimited now result skipped :
  collect_legacy_clients inbounds incl only min_days unlimited now
  = Return (result, skipped) ->
  forall r, In r skipped ->
    In (skip_reason r) reasons
    /\ (skip_email r <> ""
        <-> skip_reason r = "unlimited_skipped" \/ skip_reason r = "expired_or_too_small").
Proof.
  intros Hrun r Hr.
  destruct (collect_legacy_clients_inv _ _ _ _ _ _ _ _ Hrun)
    as (selected & cands & Hloop & _).
  destruct (collect_inbounds_account _ _ _ _ _ _ _ Hloop)
    as (new & cands' & Hsk & _ & Hnew & _). cbn in Hsk. subst new.
  destruct (Hnew r Hr) as [(row & _ & _ & ->) | (row & clients & c & _ & _ & _ & Hex)].
  - cbn. split; [auto|]. split; [congruence | intros [H|H]; discriminate H].
  - pose proof (examine_client_skip _ _ _ _ _ _ _ Hex)
      as (_ & _ & [(Hreason & Hemail & _) | [(Hreason & Hemail & (Hne & _) & _)
                                            | (Hreason & Hemail & (Hne & _) & _)]]);
      rewrite Hreason, Hemail; unfold reasons; cbn [In].
    + split; [auto|]. split; [congruence | intros [H|H]; discriminate H].
    + split; [auto|]. split; auto.
    + split; [auto 6|]. split; auto.
Qed.

(** X19. Every client of a fetched inbound is accounted for once: as a
    candidate, as a skip record, or as a numeric email left out without a
    record; the other skip records are one per inbound with broken settings.
    The rows returned are at most as many as the candidates. *)
Theorem every_client_is_accounted_for
    inbounds incl only min_days unlimited now result skipped :
  collect_legacy_clients inbounds incl only min_days unlimited now
  = Return (result, skipped) ->
  exists cands,
    candidates incl min_days unlimited now (fetch_inbounds only inbounds) = Return cands
    /\ (length skipped + length cands
        + length (List.filter (dropped incl) (clients_of (fetch_inbounds only inbounds)))
        = length (clients_of (fetch_inbounds only inbounds))
          + length (broken (fetch_inbounds only inbounds)))%nat
    /\ (length result <= length cands)%nat.
Proof.
  intros Hrun.
  destruct (collect_legacy_clients_inv _ _ _ _ _ _ _ _ Hrun)
    as (selected & cands & Hloop & Hcands & Hsel & Hresult & Hsub).
  destruct (collect_inbounds_account _ _ _ _ _ _ _ Hloop)
    as (new & cands' & Hsk & Hcands' & _ & _ & Hcount).
  rewrite Hcands in Hcands'. injection Hcands' as <-. cbn in Hsk. subst new.
  exists cands. split; [assumption|]. split; [assumption|].
  apply List.NoDup_incl_length; [|exact Hsub].
  apply (List.NoDup_map_inv entry_email).
  subst result.
  apply (Permutation_NoDup (l := List.map entry_email (dict_values selected))).
  - apply Permutation_map. symmetry. apply sorted_perm.
  - rewrite (selection_emails selected cands Hsel). apply Hsel.
Qed.

(** *** The order of the rows *)

Lemma sorted_insert_sorted (x : entry) (l : list entry) :
  Sorted email_order l ->
  Sorted email_order (sorted_insert (fun row => Str.lower (entry_email row)) x l).
Proof.
  induction 1 as [|y l Hl IH Hhd]; cbn [sorted_insert].
  - repeat constructor.
  - destruct (String.leb (Str.lower (entry_email x)) (Str.lower (entry_email y))) eqn:Hxy.
    + constructor; [constructor; assumption|]. constructor. exact Hxy.
    + constructor; [exact IH|].
      assert (Hyx : email_order y x).
      { unfold email_order.
        destruct (String.leb_total (Str.lower (entry_email x)) (Str.lower (entry_email y)))
          as [H|H]; [congruence | exact H]. }
      destruct l as [|z l]; cbn [sorted_insert].
      * constructor. exact Hyx.
      * destruct (String.leb (Str.lower (entry_email x)) (Str.lower (entry_email z)));
          constructor; [exact Hyx|].
        inversion Hhd. assumption.
Qed.

(** X20. The rows are returned in ascending order of their lower-cased
    emails. *)
Theorem collected_rows_are_sorted
    inbounds incl only min_days unlimited now result skipped :
  collect_legacy_clients inbounds incl only min_days unlimited now
  = Return (result, skipped) ->
  Sorted email_order result.
Proof.
  intros Hrun.
  destruct (collect_legacy_clients_inv _ _ _ _ _ _ _ _ Hrun)
    as (selected & cands & _ & _ & _ & -> & _).
  clear Hrun. induction (dict_values selected) as [|x l IH]; cbn [sorted].
  - constructor.
  - apply sorted_insert_sorted. exact IH.
Qed.

End CollectionMore.

(** *** A client that makes the division overflow *)

Section CollectionFailure.

Import Promocodes Situations.








End CollectionFailure.

(** ** Code generation: the alphabet and the shared set *)

Section CodesMore.

Import Promocodes Situations.








(** X22. When the loop over the prepared rows ends, the shared set holds
    the codes it held before and the codes assigned, nothing else, and has
    grown by one code per prepared row. *)
Theorem assigned_codes_grow_the_set
    fuel entropy prefix total prepared :
  forall pos existing rows existing' pos',
    assign_codes fuel entropy pos existing prefix total prepared
    = Some (rows, existing', pos') ->
    (forall x, x ∈ existing' <-> x ∈ existing \/ In x (List.map snd rows))
    /\ size existing' = (size existing + length prepared)%nat.
Proof.
  intros pos existing rows existing' pos' Hrun.
  split; [apply (assign_codes_spec _ _ _ _ _ _ _ _ _ _ Hrun)|].
  revert pos existing rows existing' pos' Hrun.
  induction prepared as [|row prepared IH]; intros pos existing rows existing' pos'; cbn.
  - intros [= <- <- <-]. lia.
  - destruct (generate_code fuel entropy pos existing prefix total)
      as [[[code existing1] pos1]|] eqn:Hcode; [|discriminate].
    destruct (assign_codes fuel entropy pos1 existing1 prefix total prepared)
      as [[[rows1 existing2] pos2]|] eqn:Hrest; [|discriminate].
    intros [= <- <- <-].
    apply generate_code_sound in Hcode as (Hfree & -> & _).
    rewrite (IH _ _ _ _ _ Hrest), size_union, size_singleton; [lia|].
    intros x Hx%elem_of_singleton Hin. subst x. exact (Hfree Hin).
Qed.

End CodesMore.

(** ** The run: what it writes and when *)

Section RunMore.

Import Promocodes Situations.





End RunMore.

(** ** The collection, the codes and the run on the samples *)

Section MoreSamples.

Import Promocodes Situations Samples.

Example collect_mixed :
  collect_legacy_clients mixed_inbounds false None 1 (Some 30) clock
  = Return (mixed_rows, mixed_skipped).
Proof. reflexivity. Qed.

(** With a minimum of two days and no override: the row of [bob@x], with
    four days. *)
Lemma collected_rows_meet_minimum_witness :
  2 <= entry_days (Build_entry 3 "bob@x" "b1" 4)
  /\ (@None Z = None -> 1 <= entry_days (Build_entry 3 "bob@x" "b1" 4)).
Proof.
  eapply (collected_rows_meet_minimum mixed_inbounds false None 2 None clock).
  - vm_compute. reflexivity.
  - right. left. reflexivity.
Defined.

(** The row of [carol]: the client [" carol "] of inbound 4, trimmed. *)
Lemma collected_rows_come_from_clients_witness :
  entry_email (Build_entry 4 "carol" "k1" 30) <> ""
  /\ (false = false -> Str.isdigit (entry_email (Build_entry 4 "carol" "k1" 30)) = false)
  /\ exists inbound clients c,
       In inbound mixed_inbounds /\ settings inbound = Settings clients /\ In c clients
       /\ entry_inbound_id (Build_entry 4 "carol" "k1" 30) = ib_id inbound
       /\ entry_email (Build_entry 4 "carol" "k1" 30) = Str.strip (client_email c)
       /\ entry_client_id (Build_entry 4 "carol" "k1" 30) = Str.strip (client_id c).
Proof.
  apply (collected_rows_come_from_clients mixed_inbounds false None 1 (Some 30) clock
           mixed_rows mixed_skipped).
  - reflexivity.
  - do 3 right. left. reflexivity.
Defined.

(** Inbound 4 only. *)
Lemma inbound_filter_is_respected_witness :
  (forall row,
     In row [Build_entry 4 "Bob@x" "b2" 1; Build_entry 4 "carol" "k1" 30] ->
     entry_inbound_id row = 4)
  /\ (forall r, In r [Build_skip 4 "" "e1" "empty_email"] -> skip_inbound_id r = 4).
Proof.
  apply (inbound_filter_is_respected mixed_inbounds false 4 1 (Some 30) clock).
  reflexivity.
Defined.

(** The record of the inbound with broken settings. *)
Lemma skip_records_have_known_reasons_witness :
  In (skip_reason (Build_skip 5 "" "" "broken_settings_json")) reasons
  /\ (skip_email (Build_skip 5 "" "" "broken_settings_json") <> ""
      <-> skip_reason (Build_skip 5 "" "" "broken_settings_json") = "unlimited_skipped"
          \/ skip_reason (Build_skip 5 "" "" "broken_settings_json") = "expired_or_too_small").
Proof.
  apply (skip_records_have_known_reasons mixed_inbounds false None 1 (Some 30) clock
           mixed_rows mixed_skipped).
  - reflexivity.
  - right. left. reflexivity.
Defined.

(** Six clients and one broken inbound: four candidates, two records and one
    numeric email. *)
Lemma every_client_is_accounted_for_witness :
  exists cands,
    candidates false 1 (Some 30) clock mixed_inbounds = Return cands
    /\ (length mixed_skipped + length cands
        + length (List.filter (dropped false) (clients_of mixed_inbounds))
        = length (clients_of mixed_inbounds) + length (broken mixed_inbounds))%nat
    /\ (length mixed_rows <= length cands)%nat.
Proof.
  apply (every_client_is_accounted_for mixed_inbounds false None 1 (Some 30) clock
           mixed_rows mixed_skipped).
  reflexivity.
Defined.

Lemma collected_rows_are_sorted_witness : Sorted email_order mixed_rows.
Proof.
  apply (collected_rows_are_sorted mixed_inbounds false None 1 (Some 30) clock
           mixed_rows mixed_skipped).
  reflexivity.
Defined.


Lemma assigned_codes_grow_the_set_witness :
  (forall x,
     x ∈ ({[ "MIGELSZ6DKR" ]} ∪ ({[ "MIGU18FMT07" ]} ∪ taken_codes) : gset string)
     <-> x ∈ taken_codes \/ In x ["MIGU18FMT07"; "MIGELSZ6DKR"])
  /\ size ({[ "MIGELSZ6DKR" ]} ∪ ({[ "MIGU18FMT07" ]} ∪ taken_codes) : gset string)
     = (size taken_codes + 2)%nat.
Proof.
  apply (assigned_codes_grow_the_set 2 stepping_draws "MIG" 11 prepared_rows 0%nat
           taken_codes
           [(Build_entry 1 "alice@x" "c1" 5, "MIGU18FMT07");
            (Build_entry 1 "bob@x" "c2" 12, "MIGELSZ6DKR")]
           _ 24%nat).
  vm_compute. reflexivity.
Defined.




End MoreSamples.
